(** * Message-descriptor extraction: a shallow embedding of [src/index.js]

    The development follows the source file top to bottom: the values and
    syntax-tree paths the visitor inspects, the insertion-ordered [Map] that
    backs the per-file registry, a small state-and-exception monad for the
    visitor callbacks, then the functions of the plugin themselves
    ([getMessageDescriptorKey], [getMessageDescriptorValue],
    [createMessageDescriptor], [storeMessage], [referencesImport] and the
    [Program], [JSXOpeningElement] and [CallExpression] visitors), and
    finally the properties proved about them. *)

From Stdlib Require Import String Ascii List Bool Arith ZArith Lia.
Import ListNotations.
Open Scope string_scope.

(** ** Values *)

(** The constants [path.evaluate()] can yield, and so the values a
    descriptor can hold.  A number is kept by the text [String] gives for
    it, which tells numbers apart ([0] and [-0], the same number to [===],
    both give ["0"]); ["NaN"] is the text of NaN.  An object (an array is
    one) is kept by its identity, with the text [String] gives for it. *)
Inductive value : Type :=
| undefined
| null
| boolean (b : bool)
| number (text : string)
| str (s : string)
| object (ref : nat) (text : string).

Definition value_eq_dec (a b : value) : {a = b} + {a <> b}.
Proof.
  decide equality;
    try apply string_dec; try apply Bool.bool_dec; apply Nat.eq_dec.
Defined.

Definition isNaN (v : value) : bool :=
  match v with
  | number text => text =? "NaN"
  | _ => false
  end.

(** The equality of [Map] keys (SameValueZero): every value is the same as
    itself. *)
Definition same_value_zero (a b : value) : bool :=
  if value_eq_dec a b then true else false.

(** [a === b]: as for [Map] keys, but NaN is not equal to itself. *)
Definition strict_eq (a b : value) : bool :=
  same_value_zero a b && negb (isNaN a).

(** [a !== b]. *)
Definition strict_neq (a b : value) : bool := negb (strict_eq a b).

(** JavaScript truthiness: [undefined], [null], [false], zero, NaN and the
    empty string are falsy. *)
Definition truthy (v : value) : bool :=
  match v with
  | undefined => false
  | null => false
  | boolean b => b
  | number text => negb (text =? "0") && negb (text =? "NaN")
  | str s => negb (s =? "")
  | object _ _ => true
  end.

(** [{id, description, defaultMessage}]; an absent property reads as
    [undefined]. *)
Record descriptor : Type := mkDescriptor {
  id : value;
  description : value;
  defaultMessage : value
}.

(** The [{}] that [createMessageDescriptor] starts its reduction from. *)
Definition empty_hash : descriptor := mkDescriptor undefined undefined undefined.

(** ** Syntax-tree paths *)

(** Where an identifier was imported from, as the host's scope analysis
    resolved it: the module source and the imported name. *)
Record import_binding : Type := mkImport {
  source : string;
  imported : string
}.

(** The node kinds the plugin distinguishes.  Constant folding is the host's
    business: nodes other than string literals and the JSX nodes, which the
    host does not fold, carry the host's answer ([Some v] when [evaluate()]
    is confident with value [v]). *)
Inductive path : Type :=
| Identifier (name : string) (binding : option import_binding)
             (evaluated : option value)
| JSXIdentifier (name : string) (binding : option import_binding)
| StringLiteral (val : string)
| JSXExpressionContainer (expression : path)
| ObjectExpression (properties : list property) (evaluated : option value)
| Expression (evaluated : option value)
with property : Type :=
| ObjectProperty (key value_ : path).

Definition isIdentifier (p : path) : bool :=
  match p with Identifier _ _ _ => true | _ => false end.

Definition isJSXIdentifier (p : path) : bool :=
  match p with JSXIdentifier _ _ => true | _ => false end.

Definition isLiteral (p : path) : bool :=
  match p with StringLiteral _ => true | _ => false end.

Definition isJSXExpressionContainer (p : path) : bool :=
  match p with JSXExpressionContainer _ => true | _ => false end.

Definition isObjectExpression (p : path) : bool :=
  match p with ObjectExpression _ _ => true | _ => false end.

(** [path.node.name]; only read on identifiers. *)
Definition node_name (p : path) : string :=
  match p with
  | Identifier n _ _ | JSXIdentifier n _ => n
  | _ => ""
  end.

(** [path.get('expression')]. *)
Definition get_expression (p : path) : path :=
  match p with
  | JSXExpressionContainer e => e
  | _ => p
  end.

(** [prop.get('key')] and [prop.get('value')]. *)
Definition get_key (p : property) : path :=
  match p with ObjectProperty k _ => k end.

Definition get_value (p : property) : path :=
  match p with ObjectProperty _ v => v end.

(** [path.get('properties')]. *)
Definition get_properties (p : path) : list property :=
  match p with
  | ObjectExpression props _ => props
  | _ => []
  end.

(** [path.evaluate()]: [Some v] is a confident result. *)
Definition evaluate (p : path) : option value :=
  match p with
  | Identifier _ _ ev => ev
  | StringLiteral s => Some (str s)
  | ObjectExpression _ ev => ev
  | Expression ev => ev
  | JSXIdentifier _ _ | JSXExpressionContainer _ => None
  end.

(** The host's [path.referencesImport(mod, name)]. *)
Definition path_referencesImport (p : path) (mod_ name : string) : bool :=
  match p with
  | Identifier _ (Some b) _ | JSXIdentifier _ (Some b) =>
      (source b =? mod_) && (imported b =? name)
  | _ => false
  end.

(** An attribute of a JSX opening element. *)
Inductive attribute : Type :=
| JSXAttribute (name value_ : path)
| JSXSpreadAttribute (argument : path).

Definition isJSXAttribute (a : attribute) : bool :=
  match a with JSXAttribute _ _ => true | JSXSpreadAttribute _ => false end.

Record JSXOpeningElementPath : Type := mkJSXOpeningElement {
  jsx_name : path;
  jsx_attributes : list attribute;
  jsx_line : nat
}.

Record CallExpressionPath : Type := mkCallExpression {
  call_callee : path;
  call_arguments : list path
}.

(** ** Diagnostics *)

(** The node a code-frame error or warning points at. *)
Inductive frame : Type :=
| AtPath (p : path)
| AtJSXOpeningElement (e : JSXOpeningElementPath)
| AtCallExpression (c : CallExpressionPath).

Inductive message : Type :=
| RequireIdAndDefaultMessage
| DuplicateMessageId (dup : value)
| MustHaveDescription
| FailedToParseJSXEscapes
| FailedToParse
| MustBeCalledWithObjectExpression (calleeName : string)
| MissingDefaultMessage
| SkippingKey
| SkippingValue.

Inductive exception : Type :=
| CodeFrameError (at_ : frame) (msg : message)
| TypeError.

Inductive warning : Type :=
| ConsoleWarn (e : exception)
| FileLogWarn (line : nat).

Definition double_quote : string := String (ascii_of_nat 34) EmptyString.

(** [String(v)], as a template literal takes it. *)
Definition to_text (v : value) : string :=
  match v with
  | undefined => "undefined"
  | null => "null"
  | boolean b => if b then "true" else "false"
  | number text => text
  | str s => s
  | object _ text => text
  end.

(** What the duplicate-id text puts before and after the id. *)
Definition duplicate_prefix : string :=
  "[React Intl] Duplicate message id: " ++ double_quote.

Definition duplicate_suffix : string :=
  double_quote ++ ", "
  ++ "but the `description` and/or `defaultMessage` are different.".

(** The text of each diagnostic, as the source spells it; [filename] is the
    name of the file the path belongs to ([fileNameFromPath]). *)
Definition message_text (filename : string) (m : message) : string :=
  match m with
  | RequireIdAndDefaultMessage =>
      "[React Intl] Message Descriptors require an `id` and `defaultMessage`."
  | DuplicateMessageId dup =>
      duplicate_prefix ++ to_text dup ++ duplicate_suffix
  | MustHaveDescription =>
      "[React Intl] Message must have a `description`."
  | FailedToParseJSXEscapes =>
      "[React Intl] Message failed to parse. "
      ++ "It looks like `\`s were used for escaping, "
      ++ "this won't work with JSX string literals. "
      ++ "Wrap with `{}`. "
      ++ "See: http://facebook.github.io/react/docs/jsx-gotchas.html"
  | FailedToParse =>
      "[React Intl] Message failed to parse. "
      ++ "See: http://formatjs.io/guides/message-syntax/"
  | MustBeCalledWithObjectExpression calleeName =>
      "[React Intl] `" ++ calleeName ++ "()` must be "
      ++ "called with an object expression with values "
      ++ "that are React Intl Message Descriptors, also "
      ++ "defined as object expressions."
  | MissingDefaultMessage =>
      "[React Intl] Message is missing a `defaultMessage`."
  | SkippingKey =>
      "[React Intl] Skipping key, messages must be statically evaluate-able for extraction. See "
      ++ filename
  | SkippingValue =>
      "[React Intl] Skipping value, messages must be statically evaluate-able for extraction. See "
      ++ filename
  end.

(** ** The insertion-ordered [Map]

    Keys are compared as a [Map] compares them. *)

Module Map.

Definition t (V : Type) : Type := list (value * V).

Definition new {V : Type} : t V := [].

Fixpoint get {V : Type} (k : value) (m : t V) : option V :=
  match m with
  | [] => None
  | (k', v) :: rest => if same_value_zero k k' then Some v else get k rest
  end.

Definition has {V : Type} (k : value) (m : t V) : bool :=
  match get k m with Some _ => true | None => false end.

(** [set] keeps the position of a key that is already present and appends
    a new key at the end. *)
Fixpoint set {V : Type} (k : value) (v : V) (m : t V) : t V :=
  match m with
  | [] => [(k, v)]
  | (k', v') :: rest =>
      if same_value_zero k k' then (k', v) :: rest
      else (k', v') :: set k v rest
  end.

Definition keys {V : Type} (m : t V) : list value := map fst m.

Definition values {V : Type} (m : t V) : list V := map snd m.

(** How many entries a key has. *)
Definition entries {V : Type} (k : value) (m : t V) : nat :=
  List.length (filter (fun e => same_value_zero k (fst e)) m).

(** Keys are unique, as in every [Map]. *)
Definition wf {V : Type} (m : t V) : Prop := NoDup (keys m).

End Map.

(** ** Plugin state and the callback monad *)

(** The calls made to the file system.  The file system is taken to accept
    every call; an I/O error would be thrown by the call itself. *)
Inductive fs_effect : Type :=
| MkdirpSync (dir : string)
| WriteFileSync (filename data : string).

(** What the callbacks read and write: [state.reactIntl.messages],
    [file.metadata['react-intl'].messages], the file system, and the warning
    sinks. *)
Record plugin_state : Type := mkState {
  reactIntl_messages : Map.t descriptor;
  file_metadata : option (list descriptor);
  file_system : list fs_effect;
  warnings : list warning
}.

Inductive outcome (A : Type) : Type :=
| Returned (a : A)
| Thrown (e : exception).
Arguments Returned {A} a.
Arguments Thrown {A} e.

(** A callback runs on a state and either returns or throws, leaving the
    state as it was at that moment. *)
Definition M (A : Type) : Type := plugin_state -> outcome A * plugin_state.

Definition ret {A : Type} (a : A) : M A := fun st => (Returned a, st).

Definition throw {A : Type} (e : exception) : M A := fun st => (Thrown e, st).

Definition bind {A B : Type} (c : M A) (k : A -> M B) : M B :=
  fun st =>
    match c st with
    | (Returned a, st') => k a st'
    | (Thrown e, st') => (Thrown e, st')
    end.

Notation "x <- c ;; k" := (bind c (fun x => k))
  (at level 61, c at next level, right associativity).
Notation "c ;; k" := (bind c (fun _ => k))
  (at level 61, right associativity).

Definition get_messages : M (Map.t descriptor) :=
  fun st => (Returned (reactIntl_messages st), st).

Definition put_messages (m : Map.t descriptor) : M unit :=
  fun st => (Returned tt,
             mkState m (file_metadata st) (file_system st) (warnings st)).

Definition put_metadata (ds : list descriptor) : M unit :=
  fun st => (Returned tt,
             mkState (reactIntl_messages st) (Some ds) (file_system st)
                     (warnings st)).

Definition fs_do (e : fs_effect) : M unit :=
  fun st => (Returned tt,
             mkState (reactIntl_messages st) (file_metadata st)
                     (file_system st ++ [e]) (warnings st)).

Definition warn (w : warning) : M unit :=
  fun st => (Returned tt,
             mkState (reactIntl_messages st) (file_metadata st)
                     (file_system st) (warnings st ++ [w])).

(** [xs.forEach(f)]. *)
Fixpoint forEach {A : Type} (f : A -> M unit) (xs : list A) : M unit :=
  match xs with
  | [] => ret tt
  | x :: rest => f x ;; forEach f rest
  end.

(** [xs.reduce(f, init)]. *)
Fixpoint reduce {A B : Type} (f : A -> B -> M A) (xs : list B) (init : A)
  : M A :=
  match xs with
  | [] => ret init
  | x :: rest => acc <- f init x ;; reduce f rest acc
  end.

(** ** Options *)

Record options : Type := mkOptions {
  moduleSourceNames : option (list string);
  componentNames : option (list string);
  functionNames : option (list string);
  enforceDescriptions : bool;
  messagesDir_option : option string
}.

(** [opts.messagesDir]: a path, or [undefined] when none is given. *)
Definition messagesDir (opts : options) : value :=
  match messagesDir_option opts with
  | Some dir => str dir
  | None => undefined
  end.

Definition COMPONENT_NAMES : list string :=
  ["FormattedMessage"; "FormattedHTMLMessage"; "Msg"; "HtmlMsg"].

Definition FUNCTION_NAMES : list string := ["defineMessages"; "msgs"].

Definition DESCRIPTOR_PROPS : list string :=
  ["id"; "description"; "defaultMessage"].

(** [opts.x || dflt]: an array, even an empty one, is truthy. *)
Definition or_default {A : Type} (o : option A) (dflt : A) : A :=
  match o with Some a => a | None => dflt end.

Definition getModuleSourceNames (opts : options) : list string :=
  or_default (moduleSourceNames opts) ["react-intl"].

Definition getComponentNames (opts : options) : list string :=
  or_default (componentNames opts) COMPONENT_NAMES.

Definition getFunctionNames (opts : options) : list string :=
  or_default (functionNames opts) FUNCTION_NAMES.

(** ** [storeMessage] *)

Definition storeMessage (d : descriptor) (path_ : frame) (opts : options)
  : M unit :=
  if negb (truthy (id d) && truthy (defaultMessage d)) then
    throw (CodeFrameError path_ RequireIdAndDefaultMessage)
  else
    messages <- get_messages ;;
    (if Map.has (id d) messages then
       match Map.get (id d) messages with
       | Some existing =>
           if strict_neq (description d) (description existing)
              || strict_neq (defaultMessage d) (defaultMessage existing)
           then throw (CodeFrameError path_ (DuplicateMessageId (id d)))
           else ret tt
       | None => throw TypeError (* [existing] would be [undefined] *)
       end
     else ret tt) ;;
    (if enforceDescriptions opts && negb (truthy (description d)) then
       throw (CodeFrameError path_ MustHaveDescription)
     else ret tt) ;;
    put_messages
      (Map.set (id d)
               (mkDescriptor (id d) (description d) (defaultMessage d))
               messages).

(** ** [referencesImport] *)

Definition referencesImport (p : path) (mods importedNames : list string)
  : bool :=
  if negb (isIdentifier p || isJSXIdentifier p) then false
  else existsb (fun name =>
                  existsb (fun mod_ => path_referencesImport p mod_ name) mods)
               importedNames.

(** ** Building a descriptor *)

(** The getters answer [None] for the [INVALID_VALUE] symbol. *)
Definition getMessageDescriptorKey (p : path) : M (option value) :=
  if isIdentifier p || isJSXIdentifier p then ret (Some (str (node_name p)))
  else
    match evaluate p with
    | Some v => ret (Some v)
    | None =>
        warn (ConsoleWarn (CodeFrameError (AtPath p) SkippingKey)) ;;
        ret None
    end.

Definition getMessageDescriptorValue (p : path) : M (option value) :=
  let p := if isJSXExpressionContainer p then get_expression p else p in
  match evaluate p with
  | Some v => ret (Some v)
  | None =>
      warn (ConsoleWarn (CodeFrameError (AtPath p) SkippingValue)) ;;
      ret None
  end.

(** [DESCRIPTOR_PROPS.has(key)]. *)
Definition DESCRIPTOR_PROPS_has (key : option value) : bool :=
  match key with
  | Some (str k) => existsb (String.eqb k) DESCRIPTOR_PROPS
  | _ => false
  end.

(** [key === k]. *)
Definition key_is (key : option value) (k : string) : bool :=
  match key with
  | Some v => strict_eq v (str k)
  | None => false
  end.

(** [hash[key] = v] for a key of [DESCRIPTOR_PROPS]. *)
Definition assign (hash : descriptor) (key : option value) (v : value)
  : descriptor :=
  match key with
  | Some (str k) =>
      if k =? "id" then mkDescriptor v (description hash) (defaultMessage hash)
      else if k =? "description" then
        mkDescriptor (id hash) v (defaultMessage hash)
      else if k =? "defaultMessage" then
        mkDescriptor (id hash) (description hash) v
      else hash
  | _ => hash
  end.

Definition backslash : ascii := ascii_of_nat 92.

(** The JavaScript literal the source searches for denotes two backslash
    characters. *)
Definition escaped_backslash : string :=
  String backslash (String backslash EmptyString).

(** [s.indexOf(needle)], [-1] when there is no occurrence. *)
Definition indexOf (s needle : string) : Z :=
  match index 0 needle s with
  | Some i => Z.of_nat i
  | None => (-1)%Z
  end.

(** [path.buildCodeFrameError(msg, Error)]: the host builds the error with
    [new Error(msg)], and [Error] is the syntax-error constructor when the
    call gives none.  The source gives the parse error it has caught, which
    is an error and not a constructor, so [new] throws a [TypeError] and no
    code-frame error is built. *)
Definition buildCodeFrameError_with (at_ : frame) (msg : message)
           (Error : string) : M exception :=
  throw TypeError.

Section Plugin.

(** The message-syntax validator of [./print-icu-message]: [inr] is the
    normalized message, [inl] the parse error it throws. *)
Variable printICUMessage : value -> string + value.

(** The [path] module, the working directory and [JSON.stringify(_, null, 2)]. *)
Variable p_sep : string.
Variable p_join : list string -> string.
Variable p_relative : string -> string -> string.
Variable p_dirname : string -> string.
Variable process_cwd : string.
Variable JSON_stringify : list descriptor -> string.

(** The callback [createMessageDescriptor] reduces the property pairs
    with. *)
Definition reducer (isJSXSource : bool) (hash : descriptor)
           (kv : path * path) : M descriptor :=
  let '(keyPath, valuePath) := kv in
  key <- getMessageDescriptorKey keyPath ;;
  if negb (DESCRIPTOR_PROPS_has key) then ret hash
  else
    value <- getMessageDescriptorValue valuePath ;;
    match value with
    | None => ret hash
    | Some v =>
        if key_is key "defaultMessage" then
          match printICUMessage v with
          | inr printed => ret (assign hash key printed)
          | inl parseError =>
              if isJSXSource && isLiteral valuePath then
                match v with
                | str s =>
                    if (indexOf s escaped_backslash >=? 0)%Z then
                      throw (CodeFrameError (AtPath valuePath)
                                            FailedToParseJSXEscapes)
                    else
                      e <- buildCodeFrameError_with (AtPath valuePath)
                                                    FailedToParse parseError ;;
                      throw e
                | _ => throw TypeError (* not a string: a literal is one *)
                end
              else
                e <- buildCodeFrameError_with (AtPath valuePath)
                                              FailedToParse parseError ;;
                throw e
          end
        else ret (assign hash key v)
    end.

Definition createMessageDescriptor (propPaths : list (path * path))
           (isJSXSource : bool) : M descriptor :=
  reduce (reducer isJSXSource) propPaths empty_hash.

(** ** The visitor *)

Record file_opts : Type := mkFileOpts {
  basename : string;
  filename : string
}.

Definition Program_enter : M unit := put_messages Map.new.

Definition Program_exit (opts : options) (file : file_opts) : M unit :=
  messages <- get_messages ;;
  let descriptors := Map.values messages in
  put_metadata descriptors ;;
  match messagesDir opts with
  | str dir =>
      if negb (dir =? "") && (0 <? List.length descriptors)%nat then
        let relativePath :=
          p_join [p_sep; p_relative process_cwd (filename file)] in
        let messagesFilename :=
          p_join [dir; p_dirname relativePath; basename file ++ ".json"] in
        let messagesFile := JSON_stringify descriptors in
        fs_do (MkdirpSync (p_dirname messagesFilename)) ;;
        fs_do (WriteFileSync messagesFilename messagesFile)
      else ret tt
  | _ => ret tt
  end.

Definition attribute_pairs (attrs : list attribute) : list (path * path) :=
  flat_map (fun a => match a with
                     | JSXAttribute n v => [(n, v)]
                     | JSXSpreadAttribute _ => []
                     end) attrs.

Definition JSXOpeningElement (p : JSXOpeningElementPath) (opts : options)
  : M unit :=
  let moduleSourceNames := getModuleSourceNames opts in
  let name := jsx_name p in
  if referencesImport name moduleSourceNames ["FormattedPlural"] then
    warn (FileLogWarn (jsx_line p))
  else if referencesImport name moduleSourceNames COMPONENT_NAMES then
    let attributes := filter isJSXAttribute (jsx_attributes p) in
    descriptor <- createMessageDescriptor (attribute_pairs attributes) true ;;
    if truthy (defaultMessage descriptor) then
      storeMessage descriptor (AtJSXOpeningElement p) opts
    else ret tt
  else ret tt.

Definition assertObjectExpression (p : CallExpressionPath)
           (node : option path) : M unit :=
  match node with
  | Some n =>
      if isObjectExpression n then ret tt
      else throw (CodeFrameError
                    (AtCallExpression p)
                    (MustBeCalledWithObjectExpression
                       (node_name (call_callee p))))
  | None =>
      throw (CodeFrameError
               (AtCallExpression p)
               (MustBeCalledWithObjectExpression (node_name (call_callee p))))
  end.

Definition processMessageObject (p : CallExpressionPath) (opts : options)
           (messageObj : path) : M unit :=
  assertObjectExpression p (Some messageObj) ;;
  let properties := get_properties messageObj in
  descriptor <- createMessageDescriptor
                  (map (fun prop => (get_key prop, get_value prop)) properties)
                  false ;;
  if negb (truthy (defaultMessage descriptor)) then
    throw (CodeFrameError (AtCallExpression p) MissingDefaultMessage)
  else storeMessage descriptor (AtCallExpression p) opts.

Definition CallExpression (p : CallExpressionPath) (opts : options)
  : M unit :=
  let moduleSourceNames := getModuleSourceNames opts in
  let callee := call_callee p in
  if referencesImport callee moduleSourceNames FUNCTION_NAMES then
    let messagesObj := nth_error (call_arguments p) 0 in
    assertObjectExpression p messagesObj ;;
    match messagesObj with
    | Some obj =>
        forEach (processMessageObject p opts)
                (map get_value (get_properties obj))
    | None => throw TypeError (* not reached: the assertion threw *)
    end
  else ret tt.

(** One file: the host enters the program, visits the nodes in tree order
    and leaves the program; an exception ends the file. *)
Inductive visited : Type :=
| VisitJSXOpeningElement (p : JSXOpeningElementPath)
| VisitCallExpression (p : CallExpressionPath).

Definition visit (opts : options) (n : visited) : M unit :=
  match n with
  | VisitJSXOpeningElement p => JSXOpeningElement p opts
  | VisitCallExpression p => CallExpression p opts
  end.

Definition transform (opts : options) (file : file_opts)
           (nodes : list visited) : M unit :=
  Program_enter ;;
  forEach (visit opts) nodes ;;
  Program_exit opts file.

End Plugin.

(** ** Registration sequences *)

(** The [storeMessage] calls of one file, in the order the visitor makes
    them; the first exception ends the file. *)
Definition registerAll (opts : options) (calls : list (descriptor * frame))
  : M unit :=
  forEach (fun c => storeMessage (fst c) (snd c) opts) calls.

(** The descriptors of a registration sequence whose id was not seen
    before, in order of first appearance. *)
Fixpoint first_registered (seen : list value) (ds : list descriptor)
  : list descriptor :=
  match ds with
  | [] => []
  | d :: rest =>
      if existsb (same_value_zero (id d)) seen then first_registered seen rest
      else d :: first_registered (seen ++ [id d])%list rest
  end.

(** ** A sample host

    A small validator and path module to run the plugin on concrete
    inputs. *)
Module Sample.

(** Accepts balanced braces and drops the blanks inside them. *)
Fixpoint print_from (depth : nat) (s : string) : option string :=
  match s with
  | EmptyString => if (depth =? 0)%nat then Some EmptyString else None
  | String c rest =>
      if Ascii.eqb c "{"%char then
        option_map (String c) (print_from (S depth) rest)
      else if Ascii.eqb c "}"%char then
        match depth with
        | O => None
        | S d => option_map (String c) (print_from d rest)
        end
      else if Ascii.eqb c " "%char && (0 <? depth)%nat then
        print_from depth rest
      else option_map (String c) (print_from depth rest)
  end.

Definition printICUMessage (v : value) : string + value :=
  match v with
  | str s =>
      match print_from 0 s with
      | Some printed => inr (str printed)
      | None => inl "SyntaxError: unbalanced braces"
      end
  | _ => inl "TypeError: not a string"
  end.

(** The path functions answer the call they were given, spelled out. *)
Definition p_sep : string := "/".
Definition p_join (parts : list string) : string :=
  "join(" ++ String.concat "," parts ++ ")".
Definition p_relative (from to : string) : string :=
  "relative(" ++ from ++ "," ++ to ++ ")".
Definition p_dirname (p : string) : string := "dirname(" ++ p ++ ")".
Definition process_cwd : string := "/cwd".
Definition JSON_stringify (ds : list descriptor) : string :=
  "[" ++ String.concat "," (map (fun d => to_text (id d)) ds) ++ "]".

Definition opts : options := mkOptions None None None false None.
Definition strict_opts : options := mkOptions None None None true None.
Definition file : file_opts := mkFileOpts "app" "/cwd/src/app.js".
Definition st0 : plugin_state := mkState Map.new None [] [].

Definition imported_from_react_intl (n : string) : path :=
  JSXIdentifier n (Some (mkImport "react-intl" n)).

Definition attr (k v : string) : attribute :=
  JSXAttribute (JSXIdentifier k None) (StringLiteral v).

Definition element (n : string) (attrs : list attribute)
  : JSXOpeningElementPath :=
  mkJSXOpeningElement (imported_from_react_intl n) attrs 1.

Definition JSXOpeningElement :=
  JSXOpeningElement printICUMessage.
Definition createMessageDescriptor :=
  createMessageDescriptor printICUMessage.
Definition CallExpression := CallExpression printICUMessage.
Definition Program_exit :=
  Program_exit p_sep p_join p_relative p_dirname process_cwd JSON_stringify.
Definition transform :=
  transform printICUMessage p_sep p_join p_relative p_dirname process_cwd
            JSON_stringify.

Definition greeting (text : string) : JSXOpeningElementPath :=
  element "FormattedMessage" [attr "id" "greeting"; attr "defaultMessage" text].

End Sample.

(** A falsy value, such as the empty string, read as an absent property. *)
Definition absent_if_empty (v : value) : value :=
  if truthy v then v else undefined.

(** The state with its registry replaced. *)
Definition with_messages (st : plugin_state) (m : Map.t descriptor)
  : plugin_state :=
  mkState m (file_metadata st) (file_system st) (warnings st).

(** Whether the registry holds an entry under the id of [d] whose
    [description] or [defaultMessage] is not that of [d]. *)
Definition conflicts (d : descriptor) (m : Map.t descriptor) : bool :=
  match Map.get (id d) m with
  | Some existing =>
      strict_neq (description d) (description existing)
      || strict_neq (defaultMessage d) (defaultMessage existing)
  | None => false
  end.

(** Every entry is filed under its own id. *)
Definition keyed (m : Map.t descriptor) : Prop :=
  forall k e, Map.get k m = Some e -> id e = k.

(** What the two getters answer, without their warnings. *)
Definition resolved_key (p : path) : option value :=
  if isIdentifier p || isJSXIdentifier p then Some (str (node_name p))
  else evaluate p.

Definition resolved_value (p : path) : option value :=
  evaluate (if isJSXExpressionContainer p then get_expression p else p).

(** A property pair from which a [defaultMessage] is resolved: the key
    resolves to that name and the value to a constant. *)
Definition resolves_defaultMessage (keyPath valuePath : path) : Prop :=
  resolved_key keyPath = Some (str "defaultMessage")
  /\ resolved_value valuePath <> None.

(** Whether a constant contains the two-backslash text the source searches
    for. *)
Definition has_escaped_backslash (v : value) : bool :=
  match v with
  | str s => (indexOf s escaped_backslash >=? 0)%Z
  | _ => false
  end.

(** The state with one more warning. *)
Definition with_warning (st : plugin_state) (w : warning) : plugin_state :=
  mkState (reactIntl_messages st) (file_metadata st) (file_system st)
          (warnings st ++ [w]).

(** The opening element is one whose attributes the visitor reads. *)
Definition isMarkupMarker (opts : options) (p : JSXOpeningElementPath)
  : bool :=
  negb (referencesImport (jsx_name p) (getModuleSourceNames opts)
                         ["FormattedPlural"])
  && referencesImport (jsx_name p) (getModuleSourceNames opts)
                      COMPONENT_NAMES.

(** The import an identifier is bound to, if it is bound to one. *)
Definition binding_of (p : path) : option import_binding :=
  match p with
  | Identifier _ b _ | JSXIdentifier _ b => b
  | _ => None
  end.

(** A callback respects a relation between states when every run of it,
    returning or throwing, relates the state it started from to the state it
    ended in. *)
Definition respects (R : plugin_state -> plugin_state -> Prop) {A : Type}
           (c : M A) : Prop :=
  forall st o st', c st = (o, st') -> R st st'.

(** Nothing but the warnings changed, and those only grew. *)
Definition only_warns (st st' : plugin_state) : Prop :=
  reactIntl_messages st' = reactIntl_messages st
  /\ file_metadata st' = file_metadata st
  /\ file_system st' = file_system st
  /\ exists ws, warnings st' = (warnings st ++ ws)%list.

(** The metadata and the file system are as they were. *)
Definition keeps_outputs (st st' : plugin_state) : Prop :=
  file_metadata st' = file_metadata st
  /\ file_system st' = file_system st.

(** What [storeMessage] asks of a descriptor, apart from the registry. *)
Definition acceptable (opts : options) (d : descriptor) : bool :=
  truthy (id d) && truthy (defaultMessage d)
  && (negb (enforceDescriptions opts) || truthy (description d)).

(** A registry as the visitor keeps it: unique keys, every entry filed
    under its own id, every entry acceptable. *)
Definition registry_ok (opts : options) (m : Map.t descriptor) : Prop :=
  Map.wf m /\ keyed m
  /\ Forall (fun d => acceptable opts d = true) (Map.values m).

(** The registry of the state a run ends in is as the visitor keeps it when
    the registry it started from was. *)
Definition keeps_registry_ok (opts : options) (st st' : plugin_state)
  : Prop :=
  registry_ok opts (reactIntl_messages st) ->
  registry_ok opts (reactIntl_messages st').

(** Two descriptors of one file that can both be registered: when they
    have the same id, the [description] and the [defaultMessage] of the
    second are [===] to those of the first. *)
Definition agree (d e : descriptor) : Prop :=
  id d = id e ->
  strict_eq (description e) (description d) = true
  /\ strict_eq (defaultMessage e) (defaultMessage d) = true.

(** * Properties *)

(** ** The plugin on small files *)

(** One usage with an id and a message gives one descriptor, whose message
    is the validator's output. *)
Example one_usage_one_descriptor :
  Sample.transform Sample.opts Sample.file
                   [VisitJSXOpeningElement (Sample.greeting "Hello { name }")]
                   Sample.st0
  = (Returned tt,
     mkState [(str "greeting",
               mkDescriptor (str "greeting") undefined (str "Hello {name}"))]
             (Some [mkDescriptor (str "greeting") undefined
                                 (str "Hello {name}")])
             [] []).
Proof. reflexivity. Qed.

(** The same usage twice gives one descriptor; a different message under the
    same id ends the file with the duplicate-id error. *)
Example same_usage_twice_one_descriptor :
  file_metadata
    (snd (Sample.transform Sample.opts Sample.file
                           [VisitJSXOpeningElement (Sample.greeting "Hello");
                            VisitJSXOpeningElement (Sample.greeting "Hello")]
                           Sample.st0))
  = Some [mkDescriptor (str "greeting") undefined (str "Hello")].
Proof. reflexivity. Qed.

Example different_message_same_id_throws :
  fst (Sample.transform Sample.opts Sample.file
                        [VisitJSXOpeningElement (Sample.greeting "Hello");
                         VisitJSXOpeningElement (Sample.greeting "Hi")]
                        Sample.st0)
  = Thrown (CodeFrameError (AtJSXOpeningElement (Sample.greeting "Hi"))
                           (DuplicateMessageId (str "greeting"))).
Proof. reflexivity. Qed.

(** A marker function called with something that is not an object
    expression throws. *)
Example call_without_object_expression_throws :
  let call :=
    mkCallExpression
      (Identifier "defineMessages"
                  (Some (mkImport "react-intl" "defineMessages")) None)
      [StringLiteral "greeting"] in
  fst (Sample.transform Sample.opts Sample.file [VisitCallExpression call]
                        Sample.st0)
  = Thrown (CodeFrameError
              (AtCallExpression call)
              (MustBeCalledWithObjectExpression "defineMessages")).
Proof. reflexivity. Qed.

(** With an output directory, the catalog is written under it, at the
    relative path of the file. *)
Example catalog_written :
  file_system
    (snd (Sample.transform
            (mkOptions None None None false (Some "build/messages"))
            Sample.file
            [VisitJSXOpeningElement (Sample.greeting "Hello")] Sample.st0))
  = [MkdirpSync
       ("dirname(join(build/messages,"
        ++ "dirname(join(/,relative(/cwd,/cwd/src/app.js))),app.json))");
     WriteFileSync
       ("join(build/messages,"
        ++ "dirname(join(/,relative(/cwd,/cwd/src/app.js))),app.json)")
       "[greeting]"].
Proof. reflexivity. Qed.

(** The search string is two characters long, and only a doubled backslash
    matches it. *)
Example escaped_backslash_is_two_characters :
  String.length escaped_backslash = 2
  /\ indexOf ("a" ++ escaped_backslash ++ "b") escaped_backslash = 1%Z
  /\ indexOf ("a" ++ String backslash "b") escaped_backslash = (-1)%Z.
Proof. repeat split; reflexivity. Qed.

(** ** Values and the map *)

Lemma same_value_zero_refl (v : value) : same_value_zero v v = true.
Proof. unfold same_value_zero. destruct (value_eq_dec v v); congruence. Qed.

Lemma same_value_zero_true (a b : value) :
  same_value_zero a b = true <-> a = b.
Proof.
  unfold same_value_zero. destruct (value_eq_dec a b); split; congruence.
Qed.

Lemma same_value_zero_false (a b : value) :
  same_value_zero a b = false <-> a <> b.
Proof.
  unfold same_value_zero. destruct (value_eq_dec a b); split; congruence.
Qed.

(** [===] holds between a value and itself, NaN apart, and between no other
    values. *)
Lemma strict_eq_true (a b : value) :
  strict_eq a b = true <-> a = b /\ isNaN a = false.
Proof.
  unfold strict_eq.
  rewrite andb_true_iff, same_value_zero_true, negb_true_iff. tauto.
Qed.

Lemma strict_eq_refl (v : value) : isNaN v = false -> strict_eq v v = true.
Proof. intros H. apply strict_eq_true. auto. Qed.

Lemma strict_neq_true (a b : value) : a <> b -> strict_neq a b = true.
Proof.
  intros H. unfold strict_neq.
  destruct (strict_eq a b) eqn:E; auto.
  apply strict_eq_true in E. tauto.
Qed.

Lemma strict_neq_false (a b : value) :
  strict_neq a b = false <-> a = b /\ isNaN a = false.
Proof.
  unfold strict_neq. rewrite negb_false_iff. apply strict_eq_true.
Qed.

Lemma truthy_not_NaN (v : value) : truthy v = true -> isNaN v = false.
Proof.
  destruct v; simpl; auto.
  destruct (text =? "NaN"); auto. now rewrite andb_false_r.
Qed.

Lemma descriptor_eta (d : descriptor) :
  mkDescriptor (id d) (description d) (defaultMessage d) = d.
Proof. now destruct d. Qed.

Module MapFacts.

Lemma has_get {V : Type} (k : value) (m : Map.t V) :
  Map.has k m = true <-> exists v, Map.get k m = Some v.
Proof.
  unfold Map.has. destruct (Map.get k m) as [v|].
  - split; eauto.
  - split; [discriminate | intros [v H]; discriminate].
Qed.

Lemma has_keys {V : Type} (k : value) (m : Map.t V) :
  Map.has k m = existsb (same_value_zero k) (Map.keys m).
Proof.
  unfold Map.has. induction m as [|[k' v'] rest IH]; simpl; auto.
  destruct (same_value_zero k k'); simpl; auto.
Qed.

Lemma get_In_keys {V : Type} (k : value) (m : Map.t V) :
  Map.get k m = None <-> ~ In k (Map.keys m).
Proof.
  induction m as [|[k' v'] rest IH]; simpl.
  - tauto.
  - destruct (same_value_zero k k') eqn:E.
    + apply same_value_zero_true in E. subst. split; [discriminate | tauto].
    + apply same_value_zero_false in E. rewrite IH. split.
      * intros H [H'|H']; [congruence | tauto].
      * tauto.
Qed.

Lemma get_set_same {V : Type} (k : value) (v : V) (m : Map.t V) :
  Map.get k (Map.set k v m) = Some v.
Proof.
  induction m as [|[k' v'] rest IH]; simpl.
  - now rewrite same_value_zero_refl.
  - destruct (same_value_zero k k') eqn:E; simpl; rewrite E; auto.
Qed.

Lemma get_set_other {V : Type} (k k0 : value) (v : V) (m : Map.t V) :
  k0 <> k -> Map.get k0 (Map.set k v m) = Map.get k0 m.
Proof.
  intros Hne. induction m as [|[k' v'] rest IH]; simpl.
  - apply same_value_zero_false in Hne. now rewrite Hne.
  - destruct (same_value_zero k k') eqn:E; simpl.
    + apply same_value_zero_true in E. subst k'.
      apply same_value_zero_false in Hne. now rewrite Hne.
    + now rewrite IH.
Qed.

(** Setting a key to the value it already has changes nothing. *)
Lemma set_same_value {V : Type} (k : value) (v : V) (m : Map.t V) :
  Map.get k m = Some v -> Map.set k v m = m.
Proof.
  induction m as [|[k' v'] rest IH]; simpl; [discriminate|].
  destruct (same_value_zero k k') eqn:E.
  - intros [= ->]. reflexivity.
  - intros H. now rewrite IH.
Qed.

(** A new key goes to the end. *)
Lemma set_new_key {V : Type} (k : value) (v : V) (m : Map.t V) :
  Map.get k m = None -> Map.set k v m = (m ++ [(k, v)])%list.
Proof.
  induction m as [|[k' v'] rest IH]; simpl; auto.
  destruct (same_value_zero k k') eqn:E; [discriminate|].
  intros H. now rewrite IH.
Qed.

Lemma keys_set_present {V : Type} (k : value) (v : V) (m : Map.t V) :
  In k (Map.keys m) -> Map.keys (Map.set k v m) = Map.keys m.
Proof.
  induction m as [|[k' v'] rest IH]; simpl; [tauto|].
  destruct (same_value_zero k k') eqn:E; simpl; auto.
  apply same_value_zero_false in E. intros [H|H]; [congruence|].
  now rewrite IH.
Qed.

Lemma set_wf {V : Type} (k : value) (v : V) (m : Map.t V) :
  Map.wf m -> Map.wf (Map.set k v m).
Proof.
  unfold Map.wf. intros Hwf.
  destruct (Map.get k m) as [v0|] eqn:G.
  - rewrite keys_set_present; auto.
    destruct (in_dec value_eq_dec k (Map.keys m)) as [Hin|Hout]; auto.
    apply get_In_keys in Hout. congruence.
  - rewrite set_new_key by assumption. unfold Map.keys.
    rewrite map_app. simpl.
    apply NoDup_app; auto.
    + repeat constructor. simpl. tauto.
    + intros x Hx [Hy|[]]. simpl in Hy. subst x.
      apply get_In_keys in G. contradiction.
Qed.

Lemma entries_absent {V : Type} (k : value) (m : Map.t V) :
  ~ In k (Map.keys m) -> Map.entries k m = 0.
Proof.
  unfold Map.entries.
  induction m as [|[k' v'] rest IH]; simpl; auto.
  intros H. destruct (same_value_zero k k') eqn:E.
  - apply same_value_zero_true in E. subst k'. exfalso. apply H. now left.
  - apply IH. intros Hin. apply H. now right.
Qed.

(** A key that is present in a well-formed map has exactly one entry. *)
Lemma entries_present {V : Type} (k : value) (m : Map.t V) :
  Map.wf m -> In k (Map.keys m) -> Map.entries k m = 1.
Proof.
  unfold Map.wf.
  induction m as [|[k' v'] rest IH]; simpl; [tauto|].
  intros Hwf Hin. inversion Hwf as [|? ? Hnotin Hrest]; subst.
  unfold Map.entries. simpl.
  destruct (same_value_zero k k') eqn:E; simpl.
  - apply same_value_zero_true in E. subst k'.
    f_equal. apply (entries_absent k rest Hnotin).
  - apply same_value_zero_false in E. destruct Hin as [H|H]; [congruence|].
    apply IH; auto.
Qed.

Lemma In_keys_set {V : Type} (k : value) (v : V) (m : Map.t V) :
  In k (Map.keys (Map.set k v m)).
Proof.
  destruct (in_dec value_eq_dec k (Map.keys (Map.set k v m))) as [H|H];
    auto.
  apply get_In_keys in H. rewrite get_set_same in H. discriminate.
Qed.

End MapFacts.

(** ** [storeMessage], case by case *)

Lemma storeMessage_eq (d : descriptor) (fr : frame) (opts : options)
      (st : plugin_state) :
  storeMessage d fr opts st =
  if negb (truthy (id d) && truthy (defaultMessage d)) then
    (Thrown (CodeFrameError fr RequireIdAndDefaultMessage), st)
  else if conflicts d (reactIntl_messages st) then
    (Thrown (CodeFrameError fr (DuplicateMessageId (id d))), st)
  else if enforceDescriptions opts && negb (truthy (description d)) then
    (Thrown (CodeFrameError fr MustHaveDescription), st)
  else
    (Returned tt,
     with_messages st (Map.set (id d) d (reactIntl_messages st))).
Proof.
  unfold storeMessage, conflicts, Map.has.
  rewrite descriptor_eta.
  destruct (negb (truthy (id d) && truthy (defaultMessage d))); auto.
  unfold bind, get_messages, put_messages, throw, ret, with_messages.
  destruct (Map.get (id d) (reactIntl_messages st)) as [existing|].
  - destruct (strict_neq (description d) (description existing)
              || strict_neq (defaultMessage d) (defaultMessage existing));
      auto.
    destruct (enforceDescriptions opts && negb (truthy (description d)));
      auto.
  - destruct (enforceDescriptions opts && negb (truthy (description d)));
      auto.
Qed.

(** What a successful registration tells about the descriptor and does to
    the state. *)
Lemma storeMessage_returned (d : descriptor) (fr : frame) (opts : options)
      (st st' : plugin_state) :
  storeMessage d fr opts st = (Returned tt, st') ->
  truthy (id d) = true /\ truthy (defaultMessage d) = true /\
  conflicts d (reactIntl_messages st) = false /\
  (enforceDescriptions opts = true -> truthy (description d) = true) /\
  st' = with_messages st (Map.set (id d) d (reactIntl_messages st)).
Proof.
  rewrite storeMessage_eq.
  destruct (truthy (id d)); simpl; [|discriminate].
  destruct (truthy (defaultMessage d)); simpl; [|discriminate].
  destruct (conflicts d (reactIntl_messages st)); [discriminate|].
  destruct (enforceDescriptions opts); simpl.
  - destruct (truthy (description d)); simpl; [|discriminate].
    intros [= <-]. auto.
  - intros [= <-]. repeat split; auto. discriminate.
Qed.

(** A descriptor does not conflict with itself, unless one of the two
    fields compared is NaN. *)
Lemma conflicts_after_set (d : descriptor) (m : Map.t descriptor) :
  isNaN (description d) = false -> isNaN (defaultMessage d) = false ->
  conflicts d (Map.set (id d) d m) = false.
Proof.
  intros H1 H2. unfold conflicts. rewrite MapFacts.get_set_same.
  apply orb_false_iff. split; apply strict_neq_false; auto.
Qed.

(** ** Required fields *)

(** The first test of [storeMessage] on its own. *)
Lemma storeMessage_falsy_required
      (d : descriptor) (fr : frame) (opts : options) (st : plugin_state) :
  truthy (id d) && truthy (defaultMessage d) = false ->
  storeMessage d fr opts st
  = (Thrown (CodeFrameError fr RequireIdAndDefaultMessage), st).
Proof.
  intros H. rewrite storeMessage_eq, H. reflexivity.
Qed.

(** C4: a descriptor whose [id] or [defaultMessage] is absent is rejected
    with the required-fields error, whatever the options (so also whatever
    [enforceDescriptions] says) and whatever the registry holds, and the
    state, registry included, is left as it was. *)
Theorem store_absent_required_field_fails
        (d : descriptor) (fr : frame) (opts : options) (st : plugin_state) :
  id d = undefined \/ defaultMessage d = undefined ->
  storeMessage d fr opts st
  = (Thrown (CodeFrameError fr RequireIdAndDefaultMessage), st).
Proof.
  intros H. apply storeMessage_falsy_required.
  destruct H as [H|H]; rewrite H; simpl.
  - reflexivity.
  - apply andb_false_r.
Qed.

Lemma store_absent_required_field_fails_witness :
  storeMessage (mkDescriptor undefined (str "greets the user") (str "Hello"))
               (AtPath (Expression None)) Sample.strict_opts Sample.st0
  = (Thrown (CodeFrameError (AtPath (Expression None))
                            RequireIdAndDefaultMessage),
     Sample.st0).
Proof.
  apply (store_absent_required_field_fails
           (mkDescriptor undefined (str "greets the user") (str "Hello"))).
  left. reflexivity.
Defined.

(** C10: the presence test is a truthiness test: an [id] or a
    [defaultMessage] that is the empty string is rejected with the same
    required-fields error as an absent one (the outcome is that of the
    descriptor with the empty field made absent), and the state is left as
    it was. *)
Theorem store_empty_required_field_fails
        (d : descriptor) (fr : frame) (opts : options) (st : plugin_state) :
  id d = str "" \/ defaultMessage d = str "" ->
  storeMessage d fr opts st
  = (Thrown (CodeFrameError fr RequireIdAndDefaultMessage), st)
  /\ storeMessage d fr opts st
     = storeMessage (mkDescriptor (absent_if_empty (id d)) (description d)
                                  (absent_if_empty (defaultMessage d)))
                    fr opts st.
Proof.
  intros H.
  assert (Hfalsy : truthy (id d) && truthy (defaultMessage d) = false).
  { destruct H as [H|H]; rewrite H; simpl.
    - reflexivity.
    - apply andb_false_r. }
  rewrite (storeMessage_falsy_required d fr opts st Hfalsy).
  split; [reflexivity|].
  symmetry. apply storeMessage_falsy_required. simpl.
  unfold absent_if_empty.
  destruct H as [H|H]; rewrite H; simpl.
  - reflexivity.
  - apply andb_false_r.
Qed.

Lemma store_empty_required_field_fails_witness :
  storeMessage (mkDescriptor (str "greeting") undefined (str ""))
               (AtPath (Expression None)) Sample.opts Sample.st0
  = (Thrown (CodeFrameError (AtPath (Expression None))
                            RequireIdAndDefaultMessage),
     Sample.st0).
Proof.
  apply (store_empty_required_field_fails
           (mkDescriptor (str "greeting") undefined (str ""))).
  right. reflexivity.
Defined.

(** ** Registering the same descriptor again *)

(** C3, as amended: take a descriptor whose [description] is equal to
    itself under [===] (any constant but NaN).  Once it has been registered,
    registering it again returns without an exception and leaves the whole
    state, so the registry too, exactly as the first registration left it;
    the registry then holds one entry under that id, and it is the
    descriptor. *)
Theorem store_twice_idempotent
        (d : descriptor) (fr fr' : frame) (opts : options)
        (st st1 : plugin_state) :
  strict_eq (description d) (description d) = true ->
  Map.wf (reactIntl_messages st) ->
  storeMessage d fr opts st = (Returned tt, st1) ->
  storeMessage d fr' opts st1 = (Returned tt, st1)
  /\ Map.entries (id d) (reactIntl_messages st1) = 1
  /\ Map.get (id d) (reactIntl_messages st1) = Some d.
Proof.
  intros Hself Hwf H1.
  apply strict_eq_true in Hself. destruct Hself as [_ Hself].
  apply storeMessage_returned in H1.
  destruct H1 as (Hid & Hdm & _ & Hdesc & ->).
  repeat split.
  - rewrite storeMessage_eq. simpl.
    rewrite Hid, Hdm, conflicts_after_set
      by auto using truthy_not_NaN.
    simpl.
    destruct (enforceDescriptions opts); simpl.
    + rewrite (Hdesc eq_refl). simpl. unfold with_messages. simpl.
      now rewrite (MapFacts.set_same_value _ _ _ (MapFacts.get_set_same _ _ _)).
    + unfold with_messages. simpl.
      now rewrite (MapFacts.set_same_value _ _ _ (MapFacts.get_set_same _ _ _)).
  - simpl. apply MapFacts.entries_present.
    + now apply MapFacts.set_wf.
    + apply MapFacts.In_keys_set.
  - simpl. apply MapFacts.get_set_same.
Qed.

Lemma store_twice_idempotent_witness :
  let d := mkDescriptor (str "greeting") undefined (str "Hello {name}") in
  let st1 := snd (storeMessage d (AtPath (Expression None)) Sample.opts
                               Sample.st0) in
  storeMessage d (AtPath (StringLiteral "again")) Sample.opts st1
  = (Returned tt, st1)
  /\ Map.entries (id d) (reactIntl_messages st1) = 1
  /\ Map.get (id d) (reactIntl_messages st1) = Some d.
Proof.
  apply (store_twice_idempotent
           (mkDescriptor (str "greeting") undefined (str "Hello {name}"))
           (AtPath (Expression None)) (AtPath (StringLiteral "again"))
           Sample.opts Sample.st0).
  - reflexivity.
  - constructor.
  - reflexivity.
Defined.

(** C3 as it was stated fails for a descriptor whose [description] is NaN:
    the first registration returns, and the second one, of the very same
    descriptor, is rejected as a duplicate, because [!==] holds between NaN
    and itself. *)
Lemma store_twice_idempotent_counterexample :
  let d := mkDescriptor (str "greeting") (number "NaN") (str "Hello") in
  let fr := AtPath (Expression None) in
  let st1 := snd (storeMessage d fr Sample.opts Sample.st0) in
  storeMessage d fr Sample.opts Sample.st0 = (Returned tt, st1)
  /\ storeMessage d fr Sample.opts st1
     = (Thrown (CodeFrameError fr (DuplicateMessageId (str "greeting"))), st1)
  /\ storeMessage d fr Sample.opts st1 <> (Returned tt, st1).
Proof.
  cbv zeta. repeat split; try reflexivity. discriminate.
Qed.

(** The same happens to two usages that spell the same object literal as
    their description: each evaluation gives an object of its own. *)
Example object_descriptions_conflict :
  let d1 := mkDescriptor (str "greeting") (object 1 "[object Object]")
                         (str "Hello") in
  let d2 := mkDescriptor (str "greeting") (object 2 "[object Object]")
                         (str "Hello") in
  let fr := AtPath (Expression None) in
  let st1 := snd (storeMessage d1 fr Sample.opts Sample.st0) in
  storeMessage d1 fr Sample.opts Sample.st0 = (Returned tt, st1)
  /\ storeMessage d1 fr Sample.opts st1 = (Returned tt, st1)
  /\ storeMessage d2 fr Sample.opts st1
     = (Thrown (CodeFrameError fr (DuplicateMessageId (str "greeting"))), st1).
Proof.
  cbv zeta. repeat split; reflexivity.
Qed.

(** Through the visitor: two usages with [description={{kind: 'x'}}], each
    evaluated to an object of its own, end the file with the duplicate-id
    error. *)
Example object_description_in_two_usages_throws :
  let usage (ref : nat) :=
    Sample.element
      "FormattedMessage"
      [Sample.attr "id" "greeting";
       JSXAttribute
         (JSXIdentifier "description" None)
         (JSXExpressionContainer
            (ObjectExpression
               [ObjectProperty (Identifier "kind" None None)
                               (StringLiteral "x")]
               (Some (object ref "[object Object]"))));
       Sample.attr "defaultMessage" "Hello"] in
  fst (Sample.transform Sample.opts Sample.file
                        [VisitJSXOpeningElement (usage 1);
                         VisitJSXOpeningElement (usage 2)]
                        Sample.st0)
  = Thrown (CodeFrameError (AtJSXOpeningElement (usage 2))
                           (DuplicateMessageId (str "greeting"))).
Proof. reflexivity. Qed.

(** ** Registration sequences keep what is registered *)

Lemma keyed_new : keyed Map.new.
Proof. intros k e. discriminate. Qed.

Lemma conflicts_false_same (d e : descriptor) (m : Map.t descriptor) :
  conflicts d m = false -> Map.get (id d) m = Some e -> id e = id d -> e = d.
Proof.
  unfold conflicts. intros Hc Hg Hid. rewrite Hg in Hc.
  apply orb_false_iff in Hc. destruct Hc as [H1 H2].
  apply strict_neq_false in H1, H2.
  destruct H1 as [H1 _], H2 as [H2 _].
  destruct d, e; simpl in *; congruence.
Qed.

Lemma storeMessage_keeps_entry (d : descriptor) (fr : frame) (opts : options)
      (st st' : plugin_state) (k : value) (e : descriptor) :
  storeMessage d fr opts st = (Returned tt, st') ->
  Map.get k (reactIntl_messages st) = Some e -> id e = k ->
  Map.get k (reactIntl_messages st') = Some e.
Proof.
  intros H Hg Hid. apply storeMessage_returned in H.
  destruct H as (_ & _ & Hc & _ & ->). simpl.
  destruct (value_eq_dec k (id d)) as [->|Hne].
  - rewrite MapFacts.get_set_same. f_equal. symmetry.
    now apply (conflicts_false_same d e (reactIntl_messages st)).
  - now rewrite MapFacts.get_set_other.
Qed.

Lemma storeMessage_keyed (d : descriptor) (fr : frame) (opts : options)
      (st st' : plugin_state) :
  storeMessage d fr opts st = (Returned tt, st') ->
  keyed (reactIntl_messages st) -> keyed (reactIntl_messages st').
Proof.
  intros H Hk. apply storeMessage_returned in H.
  destruct H as (_ & _ & _ & _ & ->). simpl. intros k e.
  destruct (value_eq_dec k (id d)) as [->|Hne].
  - rewrite MapFacts.get_set_same. now intros [= <-].
  - rewrite MapFacts.get_set_other by assumption. apply Hk.
Qed.

Lemma registerAll_cons (opts : options) (c : descriptor * frame)
      (calls : list (descriptor * frame)) (st st' : plugin_state) :
  registerAll opts (c :: calls) st = (Returned tt, st') ->
  exists st1, storeMessage (fst c) (snd c) opts st = (Returned tt, st1)
              /\ registerAll opts calls st1 = (Returned tt, st').
Proof.
  unfold registerAll. simpl. unfold bind at 1.
  destruct (storeMessage (fst c) (snd c) opts st) as [[[]|e] st1].
  - intros H. exists st1. auto.
  - discriminate.
Qed.

Lemma registerAll_keeps_entry (opts : options)
      (calls : list (descriptor * frame)) :
  forall (st st' : plugin_state) (k : value) (e : descriptor),
    registerAll opts calls st = (Returned tt, st') ->
    Map.get k (reactIntl_messages st) = Some e -> id e = k ->
    Map.get k (reactIntl_messages st') = Some e.
Proof.
  induction calls as [|c calls IH]; intros st st' k e H Hg Hid.
  - unfold registerAll in H. simpl in H. unfold ret in H.
    injection H as <-. assumption.
  - apply registerAll_cons in H. destruct H as (st1 & H1 & H2).
    apply (IH st1 st' k e H2); auto.
    now apply (storeMessage_keeps_entry _ _ _ _ _ _ _ H1).
Qed.

(** ** Conflicting duplicates *)

(** C2, as amended: take a registered descriptor and any registrations that
    succeed after it.  A second descriptor with the same id and a non-empty
    [defaultMessage], whose [description] or [defaultMessage] is not that
    of the first, is rejected with the duplicate-id error; the error carries
    the id and its text spells it; the state is left as it was, and the
    registry still holds the first descriptor under that id. *)
Theorem store_conflicting_duplicate_fails
        (d1 d2 : descriptor) (fr1 fr2 : frame) (opts : options)
        (between : list (descriptor * frame)) (st0 st1 st2 : plugin_state) :
  storeMessage d1 fr1 opts st0 = (Returned tt, st1) ->
  registerAll opts between st1 = (Returned tt, st2) ->
  id d2 = id d1 ->
  truthy (defaultMessage d2) = true ->
  description d2 <> description d1
  \/ defaultMessage d2 <> defaultMessage d1 ->
  storeMessage d2 fr2 opts st2
  = (Thrown (CodeFrameError fr2 (DuplicateMessageId (id d1))), st2)
  /\ Map.get (id d1) (reactIntl_messages st2) = Some d1
  /\ forall filename,
       message_text filename (DuplicateMessageId (id d1))
       = duplicate_prefix ++ to_text (id d1) ++ duplicate_suffix.
Proof.
  intros H1 Hb Hid Hdm Hdiff.
  assert (Hg : Map.get (id d1) (reactIntl_messages st2) = Some d1).
  { apply (registerAll_keeps_entry opts between st1 st2); auto.
    apply storeMessage_returned in H1.
    destruct H1 as (_ & _ & _ & _ & ->). simpl.
    apply MapFacts.get_set_same. }
  apply storeMessage_returned in H1. destruct H1 as (Hid1 & _).
  repeat split; auto.
  - rewrite storeMessage_eq, Hid, Hid1, Hdm. simpl.
    unfold conflicts. rewrite Hid, Hg.
    destruct Hdiff as [Hd|Hd].
    + apply strict_neq_true in Hd. now rewrite Hd.
    + apply strict_neq_true in Hd. rewrite Hd. now rewrite orb_true_r.
Qed.

Lemma store_conflicting_duplicate_fails_witness :
  let d1 := mkDescriptor (str "greeting") undefined (str "Hello") in
  let d2 := mkDescriptor (str "greeting") undefined (str "Hi") in
  let other := mkDescriptor (str "farewell") undefined (str "Bye") in
  let fr := AtPath (Expression None) in
  let st1 := snd (storeMessage d1 fr Sample.opts Sample.st0) in
  let st2 := snd (registerAll Sample.opts [(other, fr); (d1, fr)] st1) in
  storeMessage d2 fr Sample.opts st2
  = (Thrown (CodeFrameError fr (DuplicateMessageId (str "greeting"))), st2)
  /\ Map.get (str "greeting") (reactIntl_messages st2) = Some d1.
Proof.
  intros d1 d2 other fr st1 st2.
  destruct (store_conflicting_duplicate_fails
              d1 d2 fr fr Sample.opts [(other, fr); (d1, fr)]
              Sample.st0 st1 st2) as (H1 & H2 & _).
  - reflexivity.
  - reflexivity.
  - reflexivity.
  - reflexivity.
  - right. discriminate.
  - split; [exact H1 | exact H2].
Defined.

(** C2 as it was stated fails when the second descriptor of the pair has an
    empty [defaultMessage]: it differs from the registered one, but the
    required-fields test comes first and throws its own error. *)
Lemma store_conflicting_duplicate_counterexample :
  let d1 := mkDescriptor (str "greeting") undefined (str "Hello") in
  let d2 := mkDescriptor (str "greeting") undefined (str "") in
  let fr := AtPath (Expression None) in
  let st1 := snd (storeMessage d1 fr Sample.opts Sample.st0) in
  storeMessage d1 fr Sample.opts Sample.st0 = (Returned tt, st1)
  /\ id d2 = id d1
  /\ defaultMessage d2 <> defaultMessage d1
  /\ storeMessage d2 fr Sample.opts st1
     = (Thrown (CodeFrameError fr RequireIdAndDefaultMessage), st1)
  /\ storeMessage d2 fr Sample.opts st1
     <> (Thrown (CodeFrameError fr (DuplicateMessageId (id d2))), st1).
Proof.
  cbv zeta. repeat split; try reflexivity; try discriminate.
Qed.

(** ** Required descriptions *)

(** C5, as amended: take a descriptor with a non-empty [id] and
    [defaultMessage] whose [description] is absent or empty, and a registry
    that holds no conflicting entry under its id.  With
    [enforceDescriptions] on it is rejected with the description error and
    the state is left as it was; with [enforceDescriptions] off the
    registration returns and the registry holds the descriptor under its
    id. *)
Theorem store_enforces_description
        (d : descriptor) (fr : frame) (opts_on opts_off : options)
        (st : plugin_state) :
  enforceDescriptions opts_on = true ->
  enforceDescriptions opts_off = false ->
  truthy (id d) = true ->
  truthy (defaultMessage d) = true ->
  truthy (description d) = false ->
  conflicts d (reactIntl_messages st) = false ->
  storeMessage d fr opts_on st
  = (Thrown (CodeFrameError fr MustHaveDescription), st)
  /\ exists st',
       storeMessage d fr opts_off st = (Returned tt, st')
       /\ Map.get (id d) (reactIntl_messages st') = Some d.
Proof.
  intros Hon Hoff Hid Hdm Hdesc Hc. split.
  - rewrite storeMessage_eq, Hid, Hdm, Hc, Hon, Hdesc. reflexivity.
  - eexists. rewrite storeMessage_eq, Hid, Hdm, Hc, Hoff. simpl.
    split; [reflexivity|]. simpl. apply MapFacts.get_set_same.
Qed.

Lemma store_enforces_description_witness :
  let d := mkDescriptor (str "greeting") (str "") (str "Hello") in
  let fr := AtPath (Expression None) in
  storeMessage d fr Sample.strict_opts Sample.st0
  = (Thrown (CodeFrameError fr MustHaveDescription), Sample.st0)
  /\ exists st',
       storeMessage d fr Sample.opts Sample.st0 = (Returned tt, st')
       /\ Map.get (id d) (reactIntl_messages st') = Some d.
Proof.
  intros d fr.
  apply (store_enforces_description d fr Sample.strict_opts Sample.opts
                                    Sample.st0); reflexivity.
Defined.

(** C5 as it was stated fails when the registry already holds the id with a
    description: the duplicate test comes before the description test, so
    the descriptor without a description is rejected as a duplicate, with
    [enforceDescriptions] on and off alike. *)
Lemma store_enforces_description_counterexample :
  let d1 := mkDescriptor (str "greeting") (str "Greets") (str "Hello") in
  let d := mkDescriptor (str "greeting") undefined (str "Hello") in
  let fr := AtPath (Expression None) in
  let st1 := snd (storeMessage d1 fr Sample.strict_opts Sample.st0) in
  storeMessage d1 fr Sample.strict_opts Sample.st0 = (Returned tt, st1)
  /\ truthy (id d) = true /\ truthy (defaultMessage d) = true
  /\ description d = undefined
  /\ storeMessage d fr Sample.strict_opts st1
     = (Thrown (CodeFrameError fr (DuplicateMessageId (str "greeting"))), st1)
  /\ storeMessage d fr Sample.strict_opts st1
     <> (Thrown (CodeFrameError fr MustHaveDescription), st1)
  /\ storeMessage d fr Sample.opts st1
     = (Thrown (CodeFrameError fr (DuplicateMessageId (str "greeting"))), st1).
Proof.
  cbv zeta. repeat split; try reflexivity; try discriminate.
Qed.

(** ** The emitted sequence *)

Lemma registerAll_values (opts : options) (calls : list (descriptor * frame)) :
  forall st st' : plugin_state,
    keyed (reactIntl_messages st) ->
    registerAll opts calls st = (Returned tt, st') ->
    Map.values (reactIntl_messages st')
    = (Map.values (reactIntl_messages st)
       ++ first_registered (Map.keys (reactIntl_messages st))
                           (map fst calls))%list.
Proof.
  induction calls as [|[d fr] calls IH]; intros st st' Hk H.
  - unfold registerAll in H. simpl in H. unfold ret in H.
    injection H as <-. simpl. now rewrite app_nil_r.
  - apply registerAll_cons in H. destruct H as (st1 & H1 & H2).
    simpl in H1. simpl map.
    pose proof (storeMessage_keyed _ _ _ _ _ H1 Hk) as Hk1.
    rewrite (IH st1 st' Hk1 H2).
    apply storeMessage_returned in H1.
    destruct H1 as (_ & _ & Hc & _ & ->).
    simpl. rewrite <- MapFacts.has_keys. unfold Map.has.
    destruct (Map.get (id d) (reactIntl_messages st)) as [e|] eqn:G.
    + assert (e = d) as ->.
      { apply (conflicts_false_same d e (reactIntl_messages st)); auto. }
      now rewrite (MapFacts.set_same_value _ _ _ G).
    + rewrite (MapFacts.set_new_key _ _ _ G).
      unfold Map.values, Map.keys. rewrite !map_app. simpl.
      now rewrite <- app_assoc.
Qed.

Section Emission.

Variable p_sep : string.
Variable p_join : list string -> string.
Variable p_relative : string -> string -> string.
Variable p_dirname : string -> string.
Variable process_cwd : string.
Variable JSON_stringify : list descriptor -> string.

Local Abbreviation exit :=
  (Program_exit p_sep p_join p_relative p_dirname process_cwd
                JSON_stringify).

Lemma Program_exit_returns
      (opts : options) (file : file_opts) (st : plugin_state) :
  exists added : list fs_effect,
    exit opts file st
    = (Returned tt,
       mkState (reactIntl_messages st)
               (Some (Map.values (reactIntl_messages st)))
               (file_system st ++ added) (warnings st)).
Proof.
  unfold Program_exit, bind, get_messages, put_metadata, fs_do, ret.
  simpl.
  unfold messagesDir.
  destruct (messagesDir_option opts) as [dir|]; simpl.
  - destruct (negb (dir =? "")
              && (0 <? List.length (Map.values (reactIntl_messages st)))%nat).
    + eexists [_; _]. now rewrite <- app_assoc.
    + exists []. now rewrite app_nil_r.
  - exists []. now rewrite app_nil_r.
Qed.

(** C7: leaving the program always returns with the descriptor sequence
    attached as the file's metadata.  The file-system effects it adds
    contain a file write exactly when [messagesDir] is set (a non-empty
    path) and the sequence is not empty; otherwise it adds none. *)
Theorem exit_attaches_metadata_and_writes_catalog
        (opts : options) (file : file_opts) (st : plugin_state) :
  exists added : list fs_effect,
    exit opts file st
    = (Returned tt,
       mkState (reactIntl_messages st)
               (Some (Map.values (reactIntl_messages st)))
               (file_system st ++ added) (warnings st))
    /\ ((exists name data, In (WriteFileSync name data) added)
        <-> truthy (messagesDir opts) = true
            /\ Map.values (reactIntl_messages st) <> [])
    /\ (added = []
        \/ exists dir name,
             added = [MkdirpSync dir;
                      WriteFileSync
                        name
                        (JSON_stringify
                           (Map.values (reactIntl_messages st)))]).
Proof.
  unfold Program_exit, bind, get_messages, put_metadata, fs_do, ret.
  simpl.
  assert (Hnone : forall P : Prop,
             (exists name data, In (WriteFileSync name data) []) -> P).
  { intros P (name & data & []). }
  unfold messagesDir.
  destruct (messagesDir_option opts) as [dir|]; simpl;
    [|exists []; rewrite app_nil_r;
      split; [reflexivity|]; split; [|now left];
      split; [apply Hnone | intros [H _]; discriminate]].
  - destruct (dir =? "") eqn:E; simpl.
    + exists []. rewrite app_nil_r.
      split; [reflexivity|]. split; [|now left].
      split; [apply Hnone | intros [H _]; discriminate].
    + destruct (Map.values (reactIntl_messages st)) as [|d ds] eqn:V;
        simpl.
      * exists []. rewrite app_nil_r.
        split; [reflexivity|]. split; [|now left].
        split; [apply Hnone | intros [_ H]; congruence].
      * eexists [_; _]. rewrite <- app_assoc. simpl.
        split; [reflexivity|]. split.
        -- split.
           ++ intros _. split; [reflexivity | discriminate].
           ++ intros _. eexists. eexists. right. left. reflexivity.
        -- right. eexists. eexists. reflexivity.
Qed.

(** C6: when a file's registrations all return, the sequence attached at
    program exit is the sequence of the registered descriptors with every
    id kept at its first registration: a later registration of an id that
    is already there neither moves nor adds an entry. *)
Theorem emitted_in_first_registration_order
        (opts : options) (file : file_opts)
        (calls : list (descriptor * frame)) (st0 st' : plugin_state) :
  (Program_enter ;; registerAll opts calls ;; exit opts file) st0
  = (Returned tt, st') ->
  file_metadata st' = Some (first_registered [] (map fst calls)).
Proof.
  unfold bind at 1. unfold Program_enter, put_messages. simpl.
  unfold bind at 1.
  destruct (registerAll opts calls _) as [[[]|e] st1] eqn:R;
    [|discriminate].
  apply registerAll_values in R; [|apply keyed_new]. simpl in R.
  destruct (Program_exit_returns opts file st1)
    as (added & ->).
  intros [= <-]. simpl. now rewrite R.
Qed.

End Emission.

Lemma emitted_in_first_registration_order_witness :
  let greeting := mkDescriptor (str "greeting") undefined (str "Hello") in
  let farewell := mkDescriptor (str "farewell") (str "On leaving") (str "Bye") in
  let fr := AtPath (Expression None) in
  let calls := [(greeting, fr); (farewell, fr); (greeting, fr)] in
  file_metadata
    (snd ((Program_enter ;; registerAll Sample.opts calls ;;
           Sample.Program_exit Sample.opts Sample.file) Sample.st0))
  = Some [greeting; farewell].
Proof.
  intros greeting farewell fr calls.
  apply (emitted_in_first_registration_order
           Sample.p_sep Sample.p_join Sample.p_relative Sample.p_dirname
           Sample.process_cwd Sample.JSON_stringify
           Sample.opts Sample.file calls Sample.st0).
  reflexivity.
Defined.

(** ** Building descriptors *)

Lemma reduce_app {A B : Type} (f : A -> B -> M A) (pre post : list B) :
  forall (init : A) (st : plugin_state),
    reduce f (pre ++ post) init st
    = match reduce f pre init st with
      | (Returned acc, st1) => reduce f post acc st1
      | (Thrown e, st1) => (Thrown e, st1)
      end.
Proof.
  induction pre as [|x pre IH]; intros init st; simpl.
  - reflexivity.
  - unfold bind. destruct (f init x st) as [[acc|e] st1]; auto.
Qed.

Lemma getMessageDescriptorKey_eq (p : path) (st : plugin_state) :
  getMessageDescriptorKey p st
  = match resolved_key p with
    | Some v => (Returned (Some v), st)
    | None =>
        (Returned None,
         with_warning st (ConsoleWarn (CodeFrameError (AtPath p) SkippingKey)))
    end.
Proof.
  unfold getMessageDescriptorKey, resolved_key.
  destruct (isIdentifier p || isJSXIdentifier p); auto.
  destruct (evaluate p); reflexivity.
Qed.

Lemma getMessageDescriptorValue_eq (p : path) (st : plugin_state) :
  getMessageDescriptorValue p st
  = match resolved_value p with
    | Some v => (Returned (Some v), st)
    | None =>
        (Returned None,
         with_warning
           st
           (ConsoleWarn
              (CodeFrameError
                 (AtPath (if isJSXExpressionContainer p then get_expression p
                          else p))
                 SkippingValue)))
    end.
Proof.
  unfold getMessageDescriptorValue, resolved_value.
  destruct (evaluate _); reflexivity.
Qed.

Lemma literal_resolved_value (p : path) (v : value) :
  isLiteral p = true -> resolved_value p = Some v -> exists s, v = str s.
Proof.
  destruct p; simpl; try discriminate.
  intros _ [= <-]. eauto.
Qed.

Lemma DESCRIPTOR_PROPS_has_cases (key : option value) :
  DESCRIPTOR_PROPS_has key = true ->
  key = Some (str "id") \/ key = Some (str "description")
  \/ key = Some (str "defaultMessage").
Proof.
  destruct key as [[| |b|t|k|r t]|]; simpl; try discriminate.
  rewrite !orb_true_iff, !String.eqb_eq.
  intros [->|[->|[->|H]]]; auto. discriminate.
Qed.

Section Building.

Variable printICUMessage : value -> string + value.


(** One step of the reduction on a pair that resolves to a
    [defaultMessage]. *)
Lemma reducer_defaultMessage (isJSXSource : bool) (hash : descriptor)
      (keyPath valuePath : path) (v : value) (st : plugin_state) :
  resolved_key keyPath = Some (str "defaultMessage") ->
  resolved_value valuePath = Some v ->
  reducer printICUMessage isJSXSource hash (keyPath, valuePath) st
  = match printICUMessage v with
    | inr printed =>
        (Returned (mkDescriptor (id hash) (description hash) printed), st)
    | inl parseError =>
        (Thrown
           (if isJSXSource && isLiteral valuePath && has_escaped_backslash v
            then CodeFrameError (AtPath valuePath) FailedToParseJSXEscapes
            else TypeError),
         st)
    end.
Proof.
  intros Hk Hv. unfold reducer, bind.
  rewrite getMessageDescriptorKey_eq, Hk. simpl.
  rewrite getMessageDescriptorValue_eq, Hv. simpl.
  destruct (printICUMessage v) as [parseError|printed]; [|reflexivity].
  destruct (isJSXSource && isLiteral valuePath) eqn:E; simpl; [|reflexivity].
  apply andb_true_iff in E. destruct E as [_ Hlit].
  destruct (literal_resolved_value valuePath v Hlit Hv) as [s ->]. simpl.
  destruct (indexOf s escaped_backslash >=? 0)%Z; reflexivity.
Qed.

(** C8, as amended: let the pairs before it be reduced without an
    exception, and let a pair resolve to the key [defaultMessage] and to a
    constant.  The constant goes through the validator.  When the validator
    returns, the reduction goes on with the validator's output, not the
    constant, as the [defaultMessage] of the descriptor.  When the validator
    throws and the source is JSX, the value node is a literal and the
    constant contains two backslashes in a row, the reduction throws the
    error about escaping in JSX literals at the value's path.  Whenever the
    validator throws, the reduction throws and builds no descriptor. *)
Theorem defaultMessage_goes_through_validator
        (isJSXSource : bool) (pre post : list (path * path))
        (keyPath valuePath : path) (v : value) (hash : descriptor)
        (st st1 : plugin_state) :
  createMessageDescriptor printICUMessage pre isJSXSource st
  = (Returned hash, st1) ->
  resolved_key keyPath = Some (str "defaultMessage") ->
  resolved_value valuePath = Some v ->
  (forall printed,
      printICUMessage v = inr printed ->
      createMessageDescriptor printICUMessage
                              (pre ++ (keyPath, valuePath) :: post)
                              isJSXSource st
      = reduce (reducer printICUMessage isJSXSource) post
               (mkDescriptor (id hash) (description hash) printed) st1)
  /\ (forall parseError,
         printICUMessage v = inl parseError ->
         isJSXSource = true -> isLiteral valuePath = true ->
         has_escaped_backslash v = true ->
         createMessageDescriptor printICUMessage
                                 (pre ++ (keyPath, valuePath) :: post)
                                 isJSXSource st
         = (Thrown (CodeFrameError (AtPath valuePath)
                                   FailedToParseJSXEscapes),
            st1))
  /\ (forall parseError,
         printICUMessage v = inl parseError ->
         exists e,
           createMessageDescriptor printICUMessage
                                   (pre ++ (keyPath, valuePath) :: post)
                                   isJSXSource st
           = (Thrown e, st1)).
Proof.
  intros Hpre Hk Hv.
  assert (Hstep :
            createMessageDescriptor printICUMessage
                                    (pre ++ (keyPath, valuePath) :: post)
                                    isJSXSource st
            = match reducer printICUMessage isJSXSource hash
                            (keyPath, valuePath) st1 with
              | (Returned acc, st2) =>
                  reduce (reducer printICUMessage isJSXSource) post acc st2
              | (Thrown e, st2) => (Thrown e, st2)
              end).
  { unfold createMessageDescriptor in *.
    rewrite reduce_app, Hpre. reflexivity. }
  rewrite Hstep, (reducer_defaultMessage _ _ _ _ v) by assumption.
  split; [|split].
  - intros printed ->. reflexivity.
  - intros parseError -> -> -> ->. reflexivity.
  - intros parseError ->. eexists. reflexivity.
Qed.

End Building.

Lemma defaultMessage_goes_through_validator_witness :
  let printed_ok :=
    Sample.createMessageDescriptor
      [(JSXIdentifier "id" None, StringLiteral "greeting");
       (JSXIdentifier "defaultMessage" None, StringLiteral "Hello { name }")]
      true Sample.st0
    = (Returned (mkDescriptor (str "greeting") undefined
                              (str "Hello {name}")),
       Sample.st0) in
  let escapes :=
    Sample.createMessageDescriptor
      [(JSXIdentifier "id" None, StringLiteral "greeting");
       (JSXIdentifier "defaultMessage" None,
        StringLiteral ("Hello " ++ escaped_backslash ++ "{name"))]
      true Sample.st0
    = (Thrown (CodeFrameError
                 (AtPath (StringLiteral
                            ("Hello " ++ escaped_backslash ++ "{name")))
                 FailedToParseJSXEscapes),
       Sample.st0) in
  printed_ok /\ escapes.
Proof.
  split.
  - destruct (defaultMessage_goes_through_validator
                Sample.printICUMessage true
                [(JSXIdentifier "id" None, StringLiteral "greeting")] []
                (JSXIdentifier "defaultMessage" None)
                (StringLiteral "Hello { name }") (str "Hello { name }")
                (mkDescriptor (str "greeting") undefined undefined)
                Sample.st0 Sample.st0 eq_refl eq_refl eq_refl)
      as (Hok & _ & _).
    apply (Hok (str "Hello {name}")). reflexivity.
  - destruct (defaultMessage_goes_through_validator
                Sample.printICUMessage true
                [(JSXIdentifier "id" None, StringLiteral "greeting")] []
                (JSXIdentifier "defaultMessage" None)
                (StringLiteral ("Hello " ++ escaped_backslash ++ "{name"))
                (str ("Hello " ++ escaped_backslash ++ "{name"))
                (mkDescriptor (str "greeting") undefined undefined)
                Sample.st0 Sample.st0 eq_refl eq_refl eq_refl)
      as (_ & Hescapes & _).
    apply (Hescapes "SyntaxError: unbalanced braces"); reflexivity.
Defined.

(** C8 as it was stated fails on a JSX literal that contains a backslash
    followed by a letter, a backslash sequence, but nowhere two backslashes
    in a row: the validator rejects the message and what is thrown is not
    the error about escaping. *)
Lemma defaultMessage_goes_through_validator_counterexample :
  let text := "Hello" ++ String backslash "n{name" in
  let valuePath := StringLiteral text in
  let thrown :=
    Sample.createMessageDescriptor
      [(JSXIdentifier "defaultMessage" None, valuePath)] true Sample.st0 in
  isLiteral valuePath = true
  /\ indexOf text (String backslash "n") = 5%Z
  /\ Sample.printICUMessage (str text) = inl "SyntaxError: unbalanced braces"
  /\ thrown = (Thrown TypeError, Sample.st0)
  /\ thrown
     <> (Thrown (CodeFrameError (AtPath valuePath) FailedToParseJSXEscapes),
         Sample.st0).
Proof.
  cbv zeta. repeat split; try reflexivity. discriminate.
Qed.

(** ** JSX usages without a [defaultMessage] *)

Lemma attribute_pairs_filter (attrs : list attribute) :
  attribute_pairs (filter isJSXAttribute attrs) = attribute_pairs attrs.
Proof.
  induction attrs as [|[n v|a] attrs IH]; simpl; auto.
  now rewrite IH.
Qed.

Lemma In_attribute_pairs (attrs : list attribute) (n v : path) :
  In (n, v) (attribute_pairs attrs) <-> In (JSXAttribute n v) attrs.
Proof.
  induction attrs as [|[n' v'|a] attrs IH]; simpl.
  - tauto.
  - rewrite IH. split; intros [H|H]; auto; left; congruence.
  - rewrite IH. split; [auto | intros [H|H]; [discriminate | auto]].
Qed.

Section Skipping.

Variable printICUMessage : value -> string + value.


(** A pair that resolves no [defaultMessage] never reaches the validator:
    the step returns, keeps the [defaultMessage] of the hash and does not
    touch the registry. *)
Lemma reducer_without_defaultMessage (isJSXSource : bool) (hash : descriptor)
      (keyPath valuePath : path) (st : plugin_state) :
  ~ resolves_defaultMessage keyPath valuePath ->
  exists hash' st',
    reducer printICUMessage isJSXSource hash (keyPath, valuePath) st = (Returned hash', st')
    /\ defaultMessage hash' = defaultMessage hash
    /\ reactIntl_messages st' = reactIntl_messages st.
Proof.
  intros Hno. unfold reducer, bind, resolves_defaultMessage in *.
  rewrite getMessageDescriptorKey_eq.
  destruct (resolved_key keyPath) as [key|] eqn:K.
  - destruct (DESCRIPTOR_PROPS_has (Some key)) eqn:P; simpl.
    + rewrite getMessageDescriptorValue_eq.
      destruct (resolved_value valuePath) as [v|] eqn:V.
      * apply DESCRIPTOR_PROPS_has_cases in P.
        destruct P as [[= ->]|[[= ->]|[= ->]]]; simpl.
        -- eexists. eexists. split; [reflexivity|]. auto.
        -- eexists. eexists. split; [reflexivity|]. auto.
        -- exfalso. apply Hno. split; [reflexivity | discriminate].
      * eexists. eexists. split; [reflexivity|]. auto.
    + eexists. eexists. split; [reflexivity|]. auto.
  - simpl. eexists. eexists. split; [reflexivity|]. auto.
Qed.

Lemma reduce_without_defaultMessage (isJSXSource : bool)
      (pairs : list (path * path)) :
  (forall k v, In (k, v) pairs -> ~ resolves_defaultMessage k v) ->
  forall (hash : descriptor) (st : plugin_state),
  exists hash' st',
    reduce (reducer printICUMessage isJSXSource) pairs hash st = (Returned hash', st')
    /\ defaultMessage hash' = defaultMessage hash
    /\ reactIntl_messages st' = reactIntl_messages st.
Proof.
  induction pairs as [|[k v] pairs IH]; intros Hno hash st.
  - exists hash, st. auto.
  - cbn [reduce]. unfold bind.
    destruct (reducer_without_defaultMessage isJSXSource hash k v st)
      as (h1 & st1 & -> & Hd1 & Hm1).
    { apply Hno. now left. }
    destruct (IH (fun k' v' H => Hno k' v' (or_intror H)) h1 st1)
      as (h2 & st2 & -> & Hd2 & Hm2).
    exists h2, st2. repeat split; congruence.
Qed.

Lemma JSXOpeningElement_marker (p : JSXOpeningElementPath) (opts : options)
      (st : plugin_state) :
  isMarkupMarker opts p = true ->
  JSXOpeningElement printICUMessage p opts st
  = (descriptor <- createMessageDescriptor printICUMessage
                     (attribute_pairs (jsx_attributes p)) true ;;
     if truthy (defaultMessage descriptor) then
       storeMessage descriptor (AtJSXOpeningElement p) opts
     else ret tt) st.
Proof.
  unfold isMarkupMarker, JSXOpeningElement. intros H.
  apply andb_true_iff in H. destruct H as [H1 H2].
  apply negb_true_iff in H1. rewrite H1, H2.
  now rewrite attribute_pairs_filter.
Qed.

(** C9, as amended: a JSX usage none of whose attributes resolves a
    [defaultMessage] (so one made of spread attributes only, and also one
    that gives an [id] or a [description] only) is passed over: the
    visitor returns without an exception and the registry is the one it
    started from.  And for a usage that is a marker and whose descriptor
    is built without an exception, the visitor throws the required-fields
    error exactly when the descriptor has a [defaultMessage] but no
    [id]. *)
Theorem jsx_without_defaultMessage_is_skipped
        (p : JSXOpeningElementPath) (opts : options) (st : plugin_state) :
  ((forall name v,
       In (JSXAttribute name v) (jsx_attributes p) ->
       ~ resolves_defaultMessage name v) ->
   exists st',
     JSXOpeningElement printICUMessage p opts st = (Returned tt, st')
     /\ reactIntl_messages st' = reactIntl_messages st)
  /\ (forall d st1,
         isMarkupMarker opts p = true ->
         createMessageDescriptor printICUMessage (attribute_pairs (jsx_attributes p)) true st
         = (Returned d, st1) ->
         (JSXOpeningElement printICUMessage p opts st
          = (Thrown (CodeFrameError (AtJSXOpeningElement p)
                                    RequireIdAndDefaultMessage),
             st1)
          <-> truthy (defaultMessage d) = true /\ truthy (id d) = false)).
Proof.
  split.
  - intros Hno.
    destruct (isMarkupMarker opts p) eqn:Mk.
    + rewrite JSXOpeningElement_marker by assumption. unfold bind.
      destruct (reduce_without_defaultMessage
                  true (attribute_pairs (jsx_attributes p))
                  (fun k v H => Hno k v (proj1 (In_attribute_pairs _ k v) H))
                  empty_hash st)
        as (d & st' & Hr & Hd & Hm).
      unfold createMessageDescriptor. rewrite Hr.
      simpl in Hd. rewrite Hd. simpl. exists st'. auto.
    + unfold isMarkupMarker in Mk. unfold JSXOpeningElement.
      destruct (referencesImport (jsx_name p) (getModuleSourceNames opts)
                                 ["FormattedPlural"]); simpl in *.
      * eexists. unfold warn. split; reflexivity.
      * rewrite Mk. eexists. split; reflexivity.
  - intros d st1 Mk Hd.
    rewrite JSXOpeningElement_marker by assumption. unfold bind.
    rewrite Hd.
    destruct (truthy (defaultMessage d)) eqn:Tdm.
    + rewrite storeMessage_eq, Tdm.
      destruct (truthy (id d)) eqn:Tid; simpl.
      * split; [|intros [_ H]; discriminate].
        destruct (conflicts d (reactIntl_messages st1)); [discriminate|].
        destruct (enforceDescriptions opts && negb (truthy (description d)));
          discriminate.
      * split; auto.
    + unfold ret. split; [discriminate | intros [H _]; discriminate].
Qed.

End Skipping.

Lemma jsx_without_defaultMessage_is_skipped_witness :
  let spread_only :=
    Sample.element "FormattedMessage"
                   [JSXSpreadAttribute (Identifier "descriptor" None None)] in
  let no_id :=
    Sample.element "FormattedMessage" [Sample.attr "defaultMessage" "Hello"] in
  (exists st',
      Sample.JSXOpeningElement spread_only Sample.opts Sample.st0
      = (Returned tt, st')
      /\ reactIntl_messages st' = reactIntl_messages Sample.st0)
  /\ Sample.JSXOpeningElement no_id Sample.opts Sample.st0
     = (Thrown (CodeFrameError (AtJSXOpeningElement no_id)
                               RequireIdAndDefaultMessage),
        Sample.st0).
Proof.
  intros spread_only no_id. split.
  - apply (proj1 (jsx_without_defaultMessage_is_skipped
                    Sample.printICUMessage spread_only Sample.opts
                    Sample.st0)).
    intros name v [H|[]]. discriminate.
  - apply (proj2 (jsx_without_defaultMessage_is_skipped
                    Sample.printICUMessage no_id Sample.opts Sample.st0)
                 (mkDescriptor undefined undefined (str "Hello")) Sample.st0).
    + reflexivity.
    + reflexivity.
    + split; reflexivity.
Defined.

(** C9 as it was stated fails on a usage that declares an [id] and nothing
    else: it declares a descriptor property and misses the required
    [defaultMessage], yet the visitor returns without an exception, with
    descriptions enforced or not, and registers nothing. *)
Lemma jsx_without_defaultMessage_is_skipped_counterexample :
  let usage :=
    Sample.element "FormattedMessage" [Sample.attr "id" "greeting"] in
  isMarkupMarker Sample.opts usage = true
  /\ Sample.createMessageDescriptor
       (attribute_pairs (jsx_attributes usage)) true Sample.st0
     = (Returned (mkDescriptor (str "greeting") undefined undefined),
        Sample.st0)
  /\ Sample.JSXOpeningElement usage Sample.opts Sample.st0
     = (Returned tt, Sample.st0)
  /\ Sample.JSXOpeningElement usage Sample.strict_opts Sample.st0
     = (Returned tt, Sample.st0)
  /\ forall e st,
       Sample.JSXOpeningElement usage Sample.opts Sample.st0
       <> (Thrown e, st).
Proof.
  cbv zeta. repeat split; try reflexivity. intros e st. discriminate.
Qed.

(** ** Configured names *)

(** The visitors never read [componentNames] or [functionNames]: whatever
    the options give for them, the visitors do the same. *)
Lemma visitors_ignore_configured_names
      (printICUMessage : value -> string + value)
      (mods names names' fnames fnames' : option (list string))
      (enforce : bool) (dir : option string) :
  (forall p st,
      JSXOpeningElement printICUMessage p
                        (mkOptions mods names fnames enforce dir) st
      = JSXOpeningElement printICUMessage p
                          (mkOptions mods names' fnames' enforce dir) st)
  /\ (forall p st,
         CallExpression printICUMessage p
                        (mkOptions mods names fnames enforce dir) st
         = CallExpression printICUMessage p
                          (mkOptions mods names' fnames' enforce dir) st).
Proof.
  split; intros p st.
  - unfold JSXOpeningElement, getModuleSourceNames, storeMessage. simpl.
    reflexivity.
  - unfold CallExpression, processMessageObject, getModuleSourceNames,
      storeMessage.
    simpl. reflexivity.
Qed.

(** C1: with [componentNames] set to [Translate] and [functionNames] to
    [t], the getters answer the configured names, yet the visitors match
    against the built-in lists: a [Translate] element and a [t] call
    imported from [react-intl] register nothing, and a [FormattedMessage]
    element and a [defineMessages] call, which are not among the configured
    names, are registered. *)
Theorem configured_names_are_not_consulted :
  let opts := mkOptions None (Some ["Translate"]) (Some ["t"]) false None in
  let attrs := [Sample.attr "id" "greeting";
                Sample.attr "defaultMessage" "Hello"] in
  let messages :=
    ObjectExpression
      [ObjectProperty
         (Identifier "greeting" None None)
         (ObjectExpression
            [ObjectProperty (Identifier "id" None None)
                            (StringLiteral "greeting");
             ObjectProperty (Identifier "defaultMessage" None None)
                            (StringLiteral "Hello")]
            None)]
      None in
  let call (n : string) :=
    mkCallExpression (Identifier n (Some (mkImport "react-intl" n)) None)
                     [messages] in
  let registered :=
    with_messages
      Sample.st0
      [(str "greeting",
        mkDescriptor (str "greeting") undefined (str "Hello"))] in
  getComponentNames opts = ["Translate"]
  /\ getFunctionNames opts = ["t"]
  /\ Sample.JSXOpeningElement (Sample.element "Translate" attrs) opts
                              Sample.st0
     = (Returned tt, Sample.st0)
  /\ Sample.JSXOpeningElement (Sample.element "FormattedMessage" attrs) opts
                              Sample.st0
     = (Returned tt, registered)
  /\ Sample.CallExpression (call "t") opts Sample.st0
     = (Returned tt, Sample.st0)
  /\ Sample.CallExpression (call "defineMessages") opts Sample.st0
     = (Returned tt, registered).
Proof.
  cbv zeta. repeat split; reflexivity.
Qed.

(** * Further properties of the visitor *)

(** ** Matching imports *)

Lemma existsb_andb_r {A : Type} (f : A -> bool) (c : bool) (l : list A) :
  existsb (fun x => f x && c) l = existsb f l && c.
Proof.
  induction l as [|x l IH]; simpl; auto.
  rewrite IH. destruct (f x), c, (existsb f l); reflexivity.
Qed.

Lemma existsb_andb_l {A : Type} (f : A -> bool) (c : bool) (l : list A) :
  existsb (fun x => c && f x) l = c && existsb f l.
Proof.
  induction l as [|x l IH]; simpl.
  - now rewrite andb_false_r.
  - rewrite IH. destruct (f x), c, (existsb f l); reflexivity.
Qed.

Lemma referencesImport_binding (p : path) (mods names : list string) :
  referencesImport p mods names
  = match binding_of p with
    | Some b =>
        existsb (String.eqb (source b)) mods
        && existsb (String.eqb (imported b)) names
    | None => false
    end.
Proof.
  assert (H : forall b : import_binding,
             existsb (fun name =>
                        existsb (fun mod_ => (source b =? mod_)
                                             && (imported b =? name)) mods)
                     names
             = existsb (String.eqb (source b)) mods
               && existsb (String.eqb (imported b)) names).
  { intros b. induction names as [|name names IH]; simpl.
    - now rewrite andb_false_r.
    - rewrite IH, existsb_andb_r.
      destruct (existsb (String.eqb (source b)) mods),
        (imported b =? name); reflexivity. }
  assert (H0 : existsb (fun _ : string =>
                          existsb (fun _ : string => false) mods) names
               = false).
  { clear H. induction names as [|name names IH]; simpl; auto.
    rewrite IH, orb_false_r. clear. induction mods; simpl; auto. }
  unfold referencesImport.
  destruct p as [n [b|] ev|n [b|]|s|e|props|ev]; simpl; auto.
Qed.

Lemma existsb_eqb_In (x : string) (l : list string) :
  existsb (String.eqb x) l = true <-> In x l.
Proof.
  rewrite existsb_exists. split.
  - intros (y & Hy & E). apply String.eqb_eq in E. now subst.
  - intros H. exists x. split; auto. apply String.eqb_refl.
Qed.

(** X1: a path references one of the names exactly when it is an identifier
    bound to an import whose module is among the module sources and whose
    imported name is among the names; the local name plays no part. *)
Theorem referencesImport_by_import_origin
        (p : path) (mods names : list string) :
  referencesImport p mods names = true
  <-> exists b, binding_of p = Some b
                /\ In (source b) mods /\ In (imported b) names.
Proof.
  rewrite referencesImport_binding.
  destruct (binding_of p) as [b|].
  - rewrite andb_true_iff, !existsb_eqb_In. split.
    + intros [H1 H2]. exists b. auto.
    + intros (b' & [= <-] & H1 & H2). auto.
  - split; [discriminate | intros (b & H & _); discriminate].
Qed.

Lemma referencesImport_other_module (p : path) (mods names : list string) :
  (forall b, binding_of p = Some b -> ~ In (source b) mods) ->
  referencesImport p mods names = false.
Proof.
  intros H. rewrite referencesImport_binding.
  destruct (binding_of p) as [b|]; auto.
  destruct (existsb (String.eqb (source b)) mods) eqn:E; auto.
  apply existsb_eqb_In in E. now destruct (H b eq_refl).
Qed.

Section Matching.

Variable printICUMessage : value -> string + value.

(** X2: an opening element whose name is not bound to an import from one of
    the module sources (a local component, a member expression, a component
    of another package) is left alone: the visitor returns, the state is the
    one it started from and no warning is given, whatever the attributes
    are. *)
Theorem jsx_from_other_module_is_ignored
        (p : JSXOpeningElementPath) (opts : options) (st : plugin_state) :
  (forall b, binding_of (jsx_name p) = Some b ->
             ~ In (source b) (getModuleSourceNames opts)) ->
  JSXOpeningElement printICUMessage p opts st = (Returned tt, st).
Proof.
  intros H. unfold JSXOpeningElement.
  now rewrite !referencesImport_other_module by assumption.
Qed.

(** X3: a call whose callee is not bound to an import of [defineMessages]
    or [msgs] from one of the module sources is left alone: the visitor
    returns and the state is the one it started from; the arguments are not
    looked at. *)
Theorem call_of_other_function_is_ignored
        (p : CallExpressionPath) (opts : options) (st : plugin_state) :
  (forall b, binding_of (call_callee p) = Some b ->
             ~ (In (source b) (getModuleSourceNames opts)
                /\ In (imported b) FUNCTION_NAMES)) ->
  CallExpression printICUMessage p opts st = (Returned tt, st).
Proof.
  intros H. unfold CallExpression.
  destruct (referencesImport (call_callee p) (getModuleSourceNames opts)
                             FUNCTION_NAMES) eqn:E; auto.
  rewrite referencesImport_binding in E.
  destruct (binding_of (call_callee p)) as [b|]; [|discriminate].
  apply andb_true_iff in E. destruct E as [E1 E2].
  apply existsb_eqb_In in E1, E2. destruct (H b eq_refl). auto.
Qed.

(** X4: an opening element bound to the import [FormattedPlural] of one of
    the module sources gets one warning with its line and nothing else: its
    attributes are not read, so nothing is registered and nothing is thrown,
    even when they hold a message that does not parse. *)
Theorem jsx_FormattedPlural_is_warned_and_skipped
        (p : JSXOpeningElementPath) (opts : options) (st : plugin_state)
        (b : import_binding) :
  binding_of (jsx_name p) = Some b ->
  In (source b) (getModuleSourceNames opts) ->
  imported b = "FormattedPlural" ->
  JSXOpeningElement printICUMessage p opts st
  = (Returned tt, with_warning st (FileLogWarn (jsx_line p))).
Proof.
  intros Hb Hs Hi. unfold JSXOpeningElement.
  rewrite referencesImport_binding, Hb, Hi. simpl.
  apply existsb_eqb_In in Hs. rewrite Hs. reflexivity.
Qed.

End Matching.

Lemma jsx_from_other_module_is_ignored_witness :
  let p :=
    mkJSXOpeningElement
      (JSXIdentifier "FormattedMessage"
                     (Some (mkImport "my-intl" "FormattedMessage")))
      [Sample.attr "id" "greeting"; Sample.attr "defaultMessage" "Hello {"] 3 in
  Sample.JSXOpeningElement p Sample.opts Sample.st0
  = (Returned tt, Sample.st0).
Proof.
  intros p.
  apply (jsx_from_other_module_is_ignored Sample.printICUMessage p).
  intros b [= <-] [H|[]]. discriminate.
Defined.

Lemma call_of_other_function_is_ignored_witness :
  let p :=
    mkCallExpression
      (Identifier "defineMessages"
                  (Some (mkImport "react-intl" "injectIntl")) None)
      [StringLiteral "not an object"] in
  Sample.CallExpression p Sample.opts Sample.st0 = (Returned tt, Sample.st0).
Proof.
  intros p.
  apply (call_of_other_function_is_ignored Sample.printICUMessage p).
  intros b [= <-] [_ [H|[H|[]]]]; discriminate.
Defined.

Lemma jsx_FormattedPlural_is_warned_and_skipped_witness :
  let p :=
    mkJSXOpeningElement
      (JSXIdentifier "Plural" (Some (mkImport "react-intl" "FormattedPlural")))
      [Sample.attr "defaultMessage" "Hello {"] 7 in
  Sample.JSXOpeningElement p Sample.opts Sample.st0
  = (Returned tt, with_warning Sample.st0 (FileLogWarn 7)).
Proof.
  intros p.
  apply (jsx_FormattedPlural_is_warned_and_skipped
           Sample.printICUMessage p Sample.opts Sample.st0
           (mkImport "react-intl" "FormattedPlural")).
  - reflexivity.
  - left. reflexivity.
  - reflexivity.
Defined.

(** ** Relations the callbacks respect *)

Section Respects.

Variable R : plugin_state -> plugin_state -> Prop.
Hypothesis R_refl : forall st, R st st.
Hypothesis R_trans : forall a b c, R a b -> R b c -> R a c.

Lemma respects_ret {A : Type} (a : A) : respects R (ret a).
Proof. intros st o st' [= <- <-]. apply R_refl. Qed.

Lemma respects_throw {A : Type} (e : exception) : respects R (@throw A e).
Proof. intros st o st' [= <- <-]. apply R_refl. Qed.

Lemma respects_bind {A B : Type} (c : M A) (k : A -> M B) :
  respects R c -> (forall a, respects R (k a)) -> respects R (bind c k).
Proof.
  intros Hc Hk st o st'. unfold bind.
  destruct (c st) as [[a|e] st1] eqn:E.
  - intros H. apply (R_trans _ st1); [apply (Hc _ _ _ E) | apply (Hk a _ _ _ H)].
  - intros [= <- <-]. apply (Hc _ _ _ E).
Qed.

Lemma respects_forEach {A : Type} (f : A -> M unit) (xs : list A) :
  (forall x, In x xs -> respects R (f x)) -> respects R (forEach f xs).
Proof.
  induction xs as [|x xs IH]; intros Hf; simpl.
  - apply respects_ret.
  - apply respects_bind.
    + apply Hf. now left.
    + intros _. apply IH. intros y Hy. apply Hf. now right.
Qed.

Lemma respects_reduce {A B : Type} (f : A -> B -> M A) (xs : list B) :
  (forall acc x, In x xs -> respects R (f acc x)) ->
  forall init, respects R (reduce f xs init).
Proof.
  induction xs as [|x xs IH]; intros Hf init; simpl.
  - apply respects_ret.
  - apply respects_bind.
    + apply Hf. now left.
    + intros acc. apply IH. intros a y Hy. apply Hf. now right.
Qed.

End Respects.

Lemma only_warns_refl (st : plugin_state) : only_warns st st.
Proof.
  repeat split. exists []. now rewrite app_nil_r.
Qed.

Lemma only_warns_trans (a b c : plugin_state) :
  only_warns a b -> only_warns b c -> only_warns a c.
Proof.
  intros (M1 & D1 & F1 & ws1 & W1) (M2 & D2 & F2 & ws2 & W2).
  repeat split; try congruence.
  exists (ws1 ++ ws2)%list. now rewrite W2, W1, app_assoc.
Qed.

Lemma only_warns_warn (w : warning) : respects only_warns (warn w).
Proof.
  intros st o st' [= <- <-]. repeat split. now exists [w].
Qed.

Lemma only_warns_getMessageDescriptorKey (p : path) :
  respects only_warns (getMessageDescriptorKey p).
Proof.
  unfold getMessageDescriptorKey.
  destruct (isIdentifier p || isJSXIdentifier p).
  - apply respects_ret, only_warns_refl.
  - destruct (evaluate p).
    + apply respects_ret, only_warns_refl.
    + apply respects_bind.
      * apply only_warns_trans.
      * apply only_warns_warn.
      * intros _. apply respects_ret, only_warns_refl.
Qed.

Lemma only_warns_getMessageDescriptorValue (p : path) :
  respects only_warns (getMessageDescriptorValue p).
Proof.
  unfold getMessageDescriptorValue.
  destruct (evaluate _).
  - apply respects_ret, only_warns_refl.
  - apply respects_bind.
    + apply only_warns_trans.
    + apply only_warns_warn.
    + intros _. apply respects_ret, only_warns_refl.
Qed.

Section Descriptors.

Variable printICUMessage : value -> string + value.

Lemma only_warns_reducer (isJSXSource : bool) (hash : descriptor)
      (kv : path * path) :
  respects only_warns (reducer printICUMessage isJSXSource hash kv).
Proof.
  destruct kv as [keyPath valuePath]. unfold reducer.
  apply respects_bind;
    [apply only_warns_trans | apply only_warns_getMessageDescriptorKey |].
  intros key. destruct (negb (DESCRIPTOR_PROPS_has key)).
  - apply respects_ret, only_warns_refl.
  - apply respects_bind;
      [apply only_warns_trans | apply only_warns_getMessageDescriptorValue |].
    intros [v|]; [|apply respects_ret, only_warns_refl].
    destruct (key_is key "defaultMessage");
      [|apply respects_ret, only_warns_refl].
    destruct (printICUMessage v); [|apply respects_ret, only_warns_refl].
    assert (Hwith : respects only_warns
                             (e <- buildCodeFrameError_with
                                     (AtPath valuePath) FailedToParse s ;;
                              @throw descriptor e)).
    { intros st o st' [= <- <-]. apply only_warns_refl. }
    destruct (isJSXSource && isLiteral valuePath); [|exact Hwith].
    destruct v as [| |b|t|text|r t];
      try apply respects_throw, only_warns_refl.
    destruct (indexOf text escaped_backslash >=? 0)%Z;
      [apply respects_throw, only_warns_refl | exact Hwith].
Qed.

Lemma only_warns_createMessageDescriptor (pairs : list (path * path))
      (isJSXSource : bool) :
  respects only_warns
           (createMessageDescriptor printICUMessage pairs isJSXSource).
Proof.
  apply respects_reduce.
  - apply only_warns_refl.
  - apply only_warns_trans.
  - intros acc x _. apply only_warns_reducer.
Qed.

(** X5: building a descriptor, whether it returns or throws, leaves the
    registry, the metadata and the file system as they were; all it can do
    to the state is add warnings after the ones already given. *)
Theorem createMessageDescriptor_only_warns
        (pairs : list (path * path)) (isJSXSource : bool)
        (st : plugin_state) :
  only_warns
    st (snd (createMessageDescriptor printICUMessage pairs isJSXSource st)).
Proof.
  destruct (createMessageDescriptor printICUMessage pairs isJSXSource st)
    as [o st'] eqn:E.
  apply (only_warns_createMessageDescriptor pairs isJSXSource st o st' E).
Qed.

(** What one step throws, when it throws. *)
Lemma reducer_thrown (isJSXSource : bool) (hash : descriptor)
      (k v : path) (st st' : plugin_state) (e : exception) :
  reducer printICUMessage isJSXSource hash (k, v) st = (Thrown e, st') ->
  resolved_key k = Some (str "defaultMessage")
  /\ exists val parseError,
       resolved_value v = Some val
       /\ printICUMessage val = inl parseError
       /\ e = if isJSXSource && isLiteral v && has_escaped_backslash val
              then CodeFrameError (AtPath v) FailedToParseJSXEscapes
              else TypeError.
Proof.
  destruct (resolved_key k) as [key|] eqn:K.
  - destruct (DESCRIPTOR_PROPS_has (Some key)) eqn:P.
    + destruct (resolved_value v) as [val|] eqn:V.
      * apply DESCRIPTOR_PROPS_has_cases in P.
        destruct P as [[= ->]|[[= ->]|[= ->]]].
        -- unfold reducer, bind, ret.
           rewrite getMessageDescriptorKey_eq, K. cbn.
           rewrite getMessageDescriptorValue_eq, V. discriminate.
        -- unfold reducer, bind, ret.
           rewrite getMessageDescriptorKey_eq, K. cbn.
           rewrite getMessageDescriptorValue_eq, V. discriminate.
        -- rewrite (reducer_defaultMessage printICUMessage _ _ _ _ val)
             by assumption.
           destruct (printICUMessage val) as [parseError|printed] eqn:Pr;
             [|discriminate].
           intros [= <- <-]. split; [reflexivity|].
           exists val, parseError. auto.
      * unfold reducer, bind, ret.
        rewrite getMessageDescriptorKey_eq, K, P. cbn.
        rewrite getMessageDescriptorValue_eq, V. discriminate.
    + unfold reducer, bind, ret.
      rewrite getMessageDescriptorKey_eq, K, P. discriminate.
  - unfold reducer, bind, ret.
    rewrite getMessageDescriptorKey_eq, K. discriminate.
Qed.

(** X6: when building a descriptor throws, it is at one of the pairs, whose
    key resolves to [defaultMessage] and whose constant the validator
    rejected; it never throws for an [id], a [description] or a value that
    is not a constant.  What is thrown is the error about escaping, at the
    value's path, when the source is JSX, the value node is a literal and
    the constant has a doubled backslash; otherwise it is a [TypeError],
    because the parse error is given to the host where it takes the error
    constructor. *)
Theorem createMessageDescriptor_throws_only_parse_errors
        (pairs : list (path * path)) (isJSXSource : bool)
        (st st' : plugin_state) (e : exception) :
  createMessageDescriptor printICUMessage pairs isJSXSource st
  = (Thrown e, st') ->
  exists k v val parseError,
    In (k, v) pairs
    /\ resolved_key k = Some (str "defaultMessage")
    /\ resolved_value v = Some val
    /\ printICUMessage val = inl parseError
    /\ e = if isJSXSource && isLiteral v && has_escaped_backslash val
           then CodeFrameError (AtPath v) FailedToParseJSXEscapes
           else TypeError.
Proof.
  unfold createMessageDescriptor. generalize empty_hash. revert st.
  induction pairs as [|[k v] pairs IH]; intros st hash; cbn [reduce].
  - discriminate.
  - unfold bind at 1.
    destruct (reducer printICUMessage isJSXSource hash (k, v) st)
      as [[acc|e1] st1] eqn:E.
    + intros H. destruct (IH st1 acc H) as (k' & v' & val & pe & Hin & Hrest).
      exists k', v', val, pe. split; [now right | exact Hrest].
    + intros [= <- <-]. apply reducer_thrown in E.
      destruct E as (Hk & val & pe & Hv & Hp & He).
      exists k, v, val, pe. split; [now left | auto].
Qed.

Lemma reduce_skip {A B : Type} (f : A -> B -> M A) (x : B)
      (pre post : list B) :
  (forall acc st, f acc x st = (Returned acc, st)) ->
  forall init st,
    reduce f (pre ++ x :: post) init st = reduce f (pre ++ post) init st.
Proof.
  intros Hx init st. rewrite !reduce_app.
  destruct (reduce f pre init st) as [[acc|e] st1]; auto.
  simpl. unfold bind. now rewrite Hx.
Qed.

(** X7: a pair whose key resolves to a name other than [id], [description]
    and [defaultMessage] plays no part in building the descriptor: with or
    without it the outcome and the state are the same.  Its value is not
    evaluated, so a value that is not a constant gives no warning. *)
Theorem createMessageDescriptor_ignores_other_props
        (pre post : list (path * path)) (k v : path) (key : value)
        (isJSXSource : bool) (st : plugin_state) :
  resolved_key k = Some key ->
  DESCRIPTOR_PROPS_has (Some key) = false ->
  createMessageDescriptor printICUMessage (pre ++ (k, v) :: post)
                          isJSXSource st
  = createMessageDescriptor printICUMessage (pre ++ post) isJSXSource st.
Proof.
  intros Hk Hp. unfold createMessageDescriptor. apply reduce_skip.
  intros acc st1. unfold reducer, bind.
  rewrite getMessageDescriptorKey_eq, Hk, Hp. reflexivity.
Qed.

(** X8: a pair with one of the three keys whose value is not a constant is
    dropped with one warning at the value (at the expression, for an
    expression container): the validator is not called, nothing is thrown
    at this pair, and the reduction goes on with the hash it had. *)
Theorem createMessageDescriptor_drops_non_constant_value
        (pre post : list (path * path)) (k v : path)
        (isJSXSource : bool) (hash : descriptor) (st st1 : plugin_state) :
  createMessageDescriptor printICUMessage pre isJSXSource st
  = (Returned hash, st1) ->
  DESCRIPTOR_PROPS_has (resolved_key k) = true ->
  resolved_value v = None ->
  createMessageDescriptor printICUMessage (pre ++ (k, v) :: post)
                          isJSXSource st
  = reduce (reducer printICUMessage isJSXSource) post hash
           (with_warning
              st1
              (ConsoleWarn
                 (CodeFrameError
                    (AtPath (if isJSXExpressionContainer v
                             then get_expression v else v))
                    SkippingValue))).
Proof.
  intros Hpre Hk Hv. unfold createMessageDescriptor in *.
  rewrite reduce_app, Hpre. cbn [reduce]. unfold bind at 1.
  unfold reducer at 1. unfold bind.
  rewrite getMessageDescriptorKey_eq.
  destruct (resolved_key k) as [key|]; [|discriminate].
  rewrite Hk. simpl.
  rewrite getMessageDescriptorValue_eq, Hv. reflexivity.
Qed.

End Descriptors.

Section Validators.

Variables printA printB : value -> string + value.

Lemma reducer_without_defaultMessage_any_validator
      (isJSXa isJSXb : bool) (hash : descriptor) (k v : path)
      (st : plugin_state) :
  ~ resolves_defaultMessage k v ->
  reducer printA isJSXa hash (k, v) st = reducer printB isJSXb hash (k, v) st.
Proof.
  intros Hno. unfold reducer, bind, resolves_defaultMessage in *.
  rewrite getMessageDescriptorKey_eq.
  destruct (resolved_key k) as [key|] eqn:K; [|reflexivity].
  destruct (DESCRIPTOR_PROPS_has (Some key)) eqn:P; simpl; [|reflexivity].
  rewrite getMessageDescriptorValue_eq.
  destruct (resolved_value v) as [val|] eqn:V; [|reflexivity].
  apply DESCRIPTOR_PROPS_has_cases in P.
  destruct P as [[= ->]|[[= ->]|[= ->]]]; simpl; try reflexivity.
  exfalso. apply Hno. split; [reflexivity | discriminate].
Qed.

(** X9: only a [defaultMessage] goes through the validator: when no pair
    resolves a [defaultMessage], the descriptor built, [id] and
    [description] taken as they are, and the state do not depend on the
    validator, nor on whether the source is JSX. *)
Theorem createMessageDescriptor_validates_only_defaultMessage
        (pairs : list (path * path)) (isJSXa isJSXb : bool)
        (st : plugin_state) :
  (forall k v, In (k, v) pairs -> ~ resolves_defaultMessage k v) ->
  createMessageDescriptor printA pairs isJSXa st
  = createMessageDescriptor printB pairs isJSXb st.
Proof.
  unfold createMessageDescriptor. generalize empty_hash. revert st.
  induction pairs as [|[k v] pairs IH]; intros st hash Hno; cbn [reduce].
  - reflexivity.
  - unfold bind.
    rewrite (reducer_without_defaultMessage_any_validator isJSXa isJSXb)
      by (apply Hno; now left).
    destruct (reducer printB isJSXb hash (k, v) st) as [[acc|e] st1]; auto.
    apply IH. intros k' v' H. apply Hno. now right.
Qed.

End Validators.

Lemma createMessageDescriptor_throws_only_parse_errors_witness :
  let pairs := [(JSXIdentifier "id" None, StringLiteral "greeting");
                (JSXIdentifier "defaultMessage" None,
                 JSXExpressionContainer (StringLiteral "Hello {"))] in
  exists k v val parseError,
    In (k, v) pairs
    /\ resolved_key k = Some (str "defaultMessage")
    /\ resolved_value v = Some val
    /\ Sample.printICUMessage val = inl parseError
    /\ TypeError
       = if true && isLiteral v && has_escaped_backslash val
         then CodeFrameError (AtPath v) FailedToParseJSXEscapes
         else TypeError.
Proof.
  intros pairs.
  apply (createMessageDescriptor_throws_only_parse_errors
           Sample.printICUMessage pairs true Sample.st0 Sample.st0).
  reflexivity.
Defined.

Lemma createMessageDescriptor_ignores_other_props_witness :
  let id_ := (JSXIdentifier "id" None, StringLiteral "greeting") in
  let values :=
    (JSXIdentifier "values" None,
     JSXExpressionContainer (Expression None)) in
  let message := (JSXIdentifier "defaultMessage" None,
                  StringLiteral "Hello {name}") in
  Sample.createMessageDescriptor [id_; values; message] true Sample.st0
  = Sample.createMessageDescriptor [id_; message] true Sample.st0.
Proof.
  intros id_ values message.
  apply (createMessageDescriptor_ignores_other_props
           Sample.printICUMessage [id_] [message]
           (JSXIdentifier "values" None)
           (JSXExpressionContainer (Expression None)) (str "values")
           true Sample.st0); reflexivity.
Defined.

Lemma createMessageDescriptor_drops_non_constant_value_witness :
  let reference := Identifier "text" None None in
  Sample.createMessageDescriptor
    [(JSXIdentifier "id" None, StringLiteral "greeting");
     (JSXIdentifier "defaultMessage" None, JSXExpressionContainer reference)]
    true Sample.st0
  = (Returned (mkDescriptor (str "greeting") undefined undefined),
     with_warning
       Sample.st0
       (ConsoleWarn (CodeFrameError (AtPath reference) SkippingValue))).
Proof.
  intros reference.
  apply (createMessageDescriptor_drops_non_constant_value
           Sample.printICUMessage
           [(JSXIdentifier "id" None, StringLiteral "greeting")] []
           (JSXIdentifier "defaultMessage" None)
           (JSXExpressionContainer reference) true
           (mkDescriptor (str "greeting") undefined undefined)
           Sample.st0 Sample.st0); reflexivity.
Defined.

Lemma createMessageDescriptor_validates_only_defaultMessage_witness :
  let pairs := [(JSXIdentifier "id" None, StringLiteral "greeting");
                (JSXIdentifier "description" None, StringLiteral "Hello {")] in
  createMessageDescriptor Sample.printICUMessage pairs true Sample.st0
  = createMessageDescriptor (fun _ => inl "always rejects") pairs false
                            Sample.st0.
Proof.
  intros pairs.
  apply (createMessageDescriptor_validates_only_defaultMessage
           Sample.printICUMessage (fun _ => inl "always rejects") pairs
           true false Sample.st0).
  intros k v Hin [Hk _].
  destruct Hin as [E|[E|[]]]; inversion E; subst; discriminate.
Defined.

(** ** More about [storeMessage] *)

Lemma storeMessage_thrown
      (d : descriptor) (fr : frame) (opts : options)
      (st : plugin_state) (e : exception) (st' : plugin_state) :
  storeMessage d fr opts st = (Thrown e, st') ->
  st' = st
  /\ (e = CodeFrameError fr RequireIdAndDefaultMessage
      \/ e = CodeFrameError fr (DuplicateMessageId (id d))
      \/ e = CodeFrameError fr MustHaveDescription).
Proof.
  rewrite storeMessage_eq.
  destruct (negb _); [intros [= <- <-]; auto|].
  destruct (conflicts _ _); [intros [= <- <-]; auto|].
  destruct (_ && _); [intros [= <- <-]; auto | discriminate].
Qed.

(** X10: a registration returns exactly when the descriptor has a non-empty
    [id] and [defaultMessage] (and, when descriptions are enforced, a
    non-empty [description]) and the registry holds no entry under its id
    with another [description] or [defaultMessage]; and when it throws, the
    state is the one it started from. *)
Theorem storeMessage_returns_iff
        (d : descriptor) (fr : frame) (opts : options) (st : plugin_state) :
  (fst (storeMessage d fr opts st) = Returned tt
   <-> acceptable opts d = true
       /\ conflicts d (reactIntl_messages st) = false)
  /\ (forall e, fst (storeMessage d fr opts st) = Thrown e ->
                snd (storeMessage d fr opts st) = st).
Proof.
  rewrite storeMessage_eq. unfold acceptable.
  destruct (truthy (id d)), (truthy (defaultMessage d)),
    (conflicts d (reactIntl_messages st)), (enforceDescriptions opts),
    (truthy (description d)); simpl;
    (split; [split; [try discriminate; auto | intros [H1 H2]; auto;
                                               try discriminate]
            | intros e H; try reflexivity; discriminate]).
Qed.

Lemma set_length_present {V : Type} (k : value) (v : V) (m : Map.t V) :
  List.length (Map.set k v m)
  = (List.length m + if Map.has k m then 0 else 1)%nat.
Proof.
  unfold Map.has. induction m as [|[k' v'] rest IH]; simpl; auto.
  destruct (same_value_zero k k'); simpl; [lia|].
  rewrite IH. destruct (Map.get k rest); lia.
Qed.

(** X11: a registration that returns changes nothing but the registry.
    There the descriptor is now found under its id, every other id gives
    what it gave before, and the registry has one more entry when the id is
    new and as many as before when it was there. *)
Theorem storeMessage_returned_frame
        (d : descriptor) (fr : frame) (opts : options)
        (st st' : plugin_state) :
  storeMessage d fr opts st = (Returned tt, st') ->
  Map.get (id d) (reactIntl_messages st') = Some d
  /\ (forall k, k <> id d ->
                Map.get k (reactIntl_messages st')
                = Map.get k (reactIntl_messages st))
  /\ List.length (reactIntl_messages st')
     = (List.length (reactIntl_messages st)
        + if Map.has (id d) (reactIntl_messages st) then 0 else 1)%nat
  /\ file_metadata st' = file_metadata st
  /\ file_system st' = file_system st
  /\ warnings st' = warnings st.
Proof.
  intros H. apply storeMessage_returned in H.
  destruct H as (_ & _ & _ & _ & ->). simpl.
  split; [apply MapFacts.get_set_same|].
  split; [intros k Hk; now apply MapFacts.get_set_other|].
  split; [apply set_length_present | auto].
Qed.

Lemma storeMessage_returned_frame_witness :
  let d := mkDescriptor (str "farewell") undefined (str "Bye") in
  let st := with_messages
              Sample.st0
              [(str "greeting",
                mkDescriptor (str "greeting") undefined (str "Hello"))] in
  let st' := snd (storeMessage d (AtPath (Expression None)) Sample.opts st) in
  Map.get (str "farewell") (reactIntl_messages st') = Some d
  /\ Map.get (str "greeting") (reactIntl_messages st')
     = Map.get (str "greeting") (reactIntl_messages st)
  /\ List.length (reactIntl_messages st') = 2.
Proof.
  intros d st st'.
  destruct (storeMessage_returned_frame
              d (AtPath (Expression None)) Sample.opts st st' eq_refl)
    as (H1 & H2 & H3 & _).
  split; [exact H1|]. split; [|exact H3].
  apply H2. discriminate.
Defined.

(** ** When a file's registrations all return *)

Lemma registerAll_returns_cons (opts : options) (d : descriptor) (fr : frame)
      (calls : list (descriptor * frame)) (st : plugin_state) :
  (exists st', registerAll opts ((d, fr) :: calls) st = (Returned tt, st'))
  <-> acceptable opts d = true
      /\ conflicts d (reactIntl_messages st) = false
      /\ exists st',
           registerAll opts calls
                       (with_messages
                          st (Map.set (id d) d (reactIntl_messages st)))
           = (Returned tt, st').
Proof.
  split.
  - intros [st' H]. apply registerAll_cons in H.
    destruct H as (st1 & H1 & H2). simpl in H1.
    apply storeMessage_returned in H1.
    destruct H1 as (Hid & Hdm & Hc & Hdesc & ->).
    split; [|split; [exact Hc | now exists st']].
    unfold acceptable. rewrite Hid, Hdm. simpl.
    destruct (enforceDescriptions opts); simpl; auto.
  - intros (Ha & Hc & st' & H). exists st'.
    unfold registerAll in *. cbn [forEach fst snd]. unfold bind at 1.
    rewrite storeMessage_eq, Hc.
    unfold acceptable in Ha. apply andb_true_iff in Ha.
    destruct Ha as [Ha Hd]. rewrite Ha. simpl.
    destruct (enforceDescriptions opts); simpl in *.
    + rewrite Hd. simpl. exact H.
    + exact H.
Qed.

Lemma conflicts_after_other (d e : descriptor) (m : Map.t descriptor) :
  conflicts d m = false ->
  (conflicts e (Map.set (id d) d m) = false
   <-> agree d e /\ conflicts e m = false).
Proof.
  intros Hd. unfold conflicts at 1, agree.
  destruct (value_eq_dec (id e) (id d)) as [E|E].
  - rewrite E, MapFacts.get_set_same.
    unfold strict_neq. rewrite orb_false_iff, !negb_false_iff. split.
    + intros [H1 H2]. split; [auto|].
      assert (d = e) as <-; [|exact Hd].
      apply strict_eq_true in H1, H2.
      destruct H1 as [H1 _], H2 as [H2 _].
      destruct d, e; simpl in *; congruence.
    + intros [H _]. apply H. auto.
  - rewrite MapFacts.get_set_other by assumption.
    fold (conflicts e m). split.
    + intros H. split; [congruence | exact H].
    + now intros [_ H].
Qed.

Lemma registerAll_returns_iff_from (opts : options)
      (calls : list (descriptor * frame)) :
  forall st : plugin_state,
    (exists st', registerAll opts calls st = (Returned tt, st'))
    <-> Forall (fun d => acceptable opts d = true) (map fst calls)
        /\ Forall (fun d => conflicts d (reactIntl_messages st) = false)
                  (map fst calls)
        /\ ForallOrdPairs agree (map fst calls).
Proof.
  induction calls as [|[d fr] calls IH]; intros st.
  - simpl. split.
    + intros _. repeat split; constructor.
    + intros _. exists st. reflexivity.
  - rewrite registerAll_returns_cons, IH. simpl. split.
    + intros (Ha & Hc & Has & Hcs & Hp).
      assert (Hsplit : Forall (agree d) (map fst calls)
                       /\ Forall (fun e => conflicts
                                             e (reactIntl_messages st) = false)
                                 (map fst calls)).
      { rewrite Forall_forall in Hcs. split; apply Forall_forall;
          intros e He; apply (conflicts_after_other d e _ Hc), Hcs, He. }
      destruct Hsplit as [Hag Hcm].
      repeat split; try constructor; auto.
    + intros (Has & Hcs & Hp).
      inversion Has as [|? ? Ha Has']; subst.
      inversion Hcs as [|? ? Hc Hcs']; subst.
      inversion Hp as [|? ? Hag Hp']; subst.
      repeat split; auto.
      rewrite Forall_forall in *. intros e He.
      apply (conflicts_after_other d e _ Hc). auto.
Qed.

(** X12: from an empty registry, the registrations of a file all return
    exactly when every descriptor has a truthy [id] and [defaultMessage]
    (and, when descriptions are enforced, a truthy [description]) and any
    two of them with the same id have a [description] and a
    [defaultMessage] that are equal under [===].  How far apart the two
    registrations are plays no part in that. *)
Theorem registerAll_returns_iff
        (opts : options) (calls : list (descriptor * frame))
        (st : plugin_state) :
  (exists st',
      (Program_enter ;; registerAll opts calls) st = (Returned tt, st'))
  <-> Forall (fun d => acceptable opts d = true) (map fst calls)
      /\ ForallOrdPairs agree (map fst calls).
Proof.
  unfold bind, Program_enter, put_messages.
  rewrite registerAll_returns_iff_from. simpl. split.
  - intros (H1 & _ & H2). auto.
  - intros (H1 & H2). repeat split; auto.
    apply Forall_forall. intros d _. reflexivity.
Qed.

(** ** What the visitors keep *)

Lemma forEach_app {A : Type} (f : A -> M unit) (pre post : list A)
      (st : plugin_state) :
  forEach f (pre ++ post) st
  = match forEach f pre st with
    | (Returned _, st1) => forEach f post st1
    | (Thrown e, st1) => (Thrown e, st1)
    end.
Proof.
  revert st. induction pre as [|x pre IH]; intros st; simpl.
  - reflexivity.
  - unfold bind. destruct (f x st) as [[[]|e] st1]; auto.
Qed.

Section VisitorsRespect.

Variable printICUMessage : value -> string + value.
Variable opts : options.
Variable R : plugin_state -> plugin_state -> Prop.
Hypothesis R_refl : forall st, R st st.
Hypothesis R_trans : forall a b c, R a b -> R b c -> R a c.
Hypothesis R_warns : forall st st', only_warns st st' -> R st st'.
Hypothesis R_store : forall d fr, respects R (storeMessage d fr opts).

Lemma createMessageDescriptor_respects (pairs : list (path * path))
      (isJSXSource : bool) :
  respects R (createMessageDescriptor printICUMessage pairs isJSXSource).
Proof.
  intros st o st' H. apply R_warns.
  apply (only_warns_createMessageDescriptor _ _ _ _ _ _ H).
Qed.

Lemma JSXOpeningElement_respects (p : JSXOpeningElementPath) :
  respects R (JSXOpeningElement printICUMessage p opts).
Proof.
  unfold JSXOpeningElement.
  destruct (referencesImport _ _ ["FormattedPlural"]).
  - intros st o st' H. apply R_warns.
    apply (only_warns_warn _ _ _ _ H).
  - destruct (referencesImport _ _ COMPONENT_NAMES);
      [|now apply respects_ret].
    apply respects_bind; auto using createMessageDescriptor_respects.
    intros d. destruct (truthy (defaultMessage d)); auto.
    now apply respects_ret.
Qed.

Lemma assertObjectExpression_respects (p : CallExpressionPath)
      (node : option path) :
  respects R (assertObjectExpression p node).
Proof.
  unfold assertObjectExpression.
  destruct node as [n|]; [destruct (isObjectExpression n)|];
    auto using respects_ret, respects_throw.
Qed.

Lemma processMessageObject_respects (p : CallExpressionPath)
      (messageObj : path) :
  respects R (processMessageObject printICUMessage p opts messageObj).
Proof.
  unfold processMessageObject.
  apply respects_bind; auto using assertObjectExpression_respects.
  intros _.
  apply respects_bind; auto using createMessageDescriptor_respects.
  intros d. destruct (negb (truthy (defaultMessage d)));
    auto using respects_throw.
Qed.

Lemma CallExpression_respects (p : CallExpressionPath) :
  respects R (CallExpression printICUMessage p opts).
Proof.
  unfold CallExpression.
  destruct (referencesImport _ _ FUNCTION_NAMES); [|now apply respects_ret].
  apply respects_bind; auto using assertObjectExpression_respects.
  intros _. destruct (nth_error (call_arguments p) 0) as [obj|];
    [|now apply respects_throw].
  apply respects_forEach; auto.
  intros x _. apply processMessageObject_respects.
Qed.

Lemma visit_respects (n : visited) :
  respects R (visit printICUMessage opts n).
Proof.
  destruct n; [apply JSXOpeningElement_respects | apply CallExpression_respects].
Qed.

End VisitorsRespect.

Lemma keeps_outputs_refl (st : plugin_state) : keeps_outputs st st.
Proof. split; reflexivity. Qed.

Lemma keeps_outputs_trans (a b c : plugin_state) :
  keeps_outputs a b -> keeps_outputs b c -> keeps_outputs a c.
Proof. intros [M1 F1] [M2 F2]. split; congruence. Qed.

Lemma keeps_outputs_only_warns (st st' : plugin_state) :
  only_warns st st' -> keeps_outputs st st'.
Proof. intros (_ & H1 & H2 & _). now split. Qed.

Lemma keeps_outputs_storeMessage (opts : options) (d : descriptor)
      (fr : frame) :
  respects keeps_outputs (storeMessage d fr opts).
Proof.
  intros st o st'. rewrite storeMessage_eq.
  destruct (negb _); [intros [= <- <-]; apply keeps_outputs_refl|].
  destruct (conflicts _ _); [intros [= <- <-]; apply keeps_outputs_refl|].
  destruct (_ && _); intros [= <- <-];
    [apply keeps_outputs_refl | split; reflexivity].
Qed.

Lemma keeps_registry_ok_refl (opts : options) (st : plugin_state) :
  keeps_registry_ok opts st st.
Proof. intros H. exact H. Qed.

Lemma keeps_registry_ok_trans (opts : options) (a b c : plugin_state) :
  keeps_registry_ok opts a b -> keeps_registry_ok opts b c ->
  keeps_registry_ok opts a c.
Proof. unfold keeps_registry_ok. auto. Qed.

Lemma keeps_registry_ok_only_warns (opts : options) (st st' : plugin_state) :
  only_warns st st' -> keeps_registry_ok opts st st'.
Proof. intros (H & _) Hok. now rewrite H. Qed.

Lemma Forall_values_set {V : Type} (P : V -> Prop) (k : value) (v : V)
      (m : Map.t V) :
  Forall P (Map.values m) -> P v -> Forall P (Map.values (Map.set k v m)).
Proof.
  intros Hm Hv. induction m as [|[k' v'] rest IH]; simpl.
  - repeat constructor. exact Hv.
  - inversion Hm as [|? ? Hv' Hrest]; subst.
    destruct (same_value_zero k k'); simpl; constructor; auto.
Qed.

Lemma keeps_registry_ok_storeMessage (opts : options) (d : descriptor)
      (fr : frame) :
  respects (keeps_registry_ok opts) (storeMessage d fr opts).
Proof.
  intros st [[]|e] st' H.
  - intros (Hwf & Hk & Hall).
    pose proof (storeMessage_keyed _ _ _ _ _ H Hk) as Hk'.
    apply storeMessage_returned in H.
    destruct H as (Hid & Hdm & _ & Hdesc & ->). simpl in *.
    split; [now apply MapFacts.set_wf|]. split; [exact Hk'|].
    apply Forall_values_set; auto.
    unfold acceptable. rewrite Hid, Hdm. simpl.
    destruct (enforceDescriptions opts); simpl; auto.
  - destruct (storeMessage_thrown d fr opts st e st' H) as [-> _].
    apply keeps_registry_ok_refl.
Qed.

Lemma keyed_values_ids (m : Map.t descriptor) :
  Map.wf m -> keyed m -> map id (Map.values m) = Map.keys m.
Proof.
  unfold Map.wf, keyed.
  induction m as [|[k e] rest IH]; intros Hwf Hk; simpl; auto.
  inversion Hwf as [|? ? Hnotin Hrest]; subst.
  f_equal.
  - apply Hk. simpl. now rewrite same_value_zero_refl.
  - apply IH; auto. intros k' e' Hg. apply Hk. simpl.
    destruct (same_value_zero k' k) eqn:E; auto.
    apply same_value_zero_true in E. subst k'.
    exfalso. apply Hnotin.
    destruct (in_dec value_eq_dec k (Map.keys rest)) as [Hin|Hout]; auto.
    apply MapFacts.get_In_keys in Hout. congruence.
Qed.

Section Files.

Variable printICUMessage : value -> string + value.
Variable p_sep : string.
Variable p_join : list string -> string.
Variable p_relative : string -> string -> string.
Variable p_dirname : string -> string.
Variable process_cwd : string.
Variable JSON_stringify : list descriptor -> string.

Local Abbreviation run :=
  (transform printICUMessage p_sep p_join p_relative p_dirname process_cwd
             JSON_stringify).

(** X13: neither visitor, returning or throwing, touches the metadata or
    the file system; they are written on leaving the program only. *)
Theorem visitors_keep_outputs
        (opts : options) (n : visited) (st : plugin_state) :
  keeps_outputs st (snd (visit printICUMessage opts n st)).
Proof.
  destruct (visit printICUMessage opts n st) as [o st'] eqn:E.
  apply (visit_respects printICUMessage opts keeps_outputs
                        keeps_outputs_refl keeps_outputs_trans
                        keeps_outputs_only_warns
                        (keeps_outputs_storeMessage opts) n st o st' E).
Qed.

Lemma forEach_visit_respects (opts : options)
      (R : plugin_state -> plugin_state -> Prop) (nodes : list visited) :
  (forall st, R st st) -> (forall a b c, R a b -> R b c -> R a c) ->
  (forall st st', only_warns st st' -> R st st') ->
  (forall d fr, respects R (storeMessage d fr opts)) ->
  respects R (forEach (visit printICUMessage opts) nodes).
Proof.
  intros Hrefl Htrans Hwarns Hstore.
  apply respects_forEach; auto.
  intros n _. now apply visit_respects.
Qed.

(** X14: when a file is transformed without an exception, the sequence
    attached as its metadata has no two descriptors with the same id, and
    each of them has a non-empty [id] and [defaultMessage] and, when
    descriptions are enforced, a non-empty [description]. *)
Theorem transform_emits_well_formed_catalog
        (opts : options) (file : file_opts) (nodes : list visited)
        (st st' : plugin_state) :
  run opts file nodes st = (Returned tt, st') ->
  exists ds,
    file_metadata st' = Some ds
    /\ NoDup (map id ds)
    /\ Forall (fun d => acceptable opts d = true) ds.
Proof.
  unfold transform, bind at 1, Program_enter, put_messages. unfold bind at 1.
  destruct (forEach (visit printICUMessage opts) nodes _)
    as [[[]|e] st1] eqn:E; [|discriminate].
  apply (forEach_visit_respects
           opts (keeps_registry_ok opts) nodes
           (keeps_registry_ok_refl opts) (keeps_registry_ok_trans opts)
           (keeps_registry_ok_only_warns opts)
           (keeps_registry_ok_storeMessage opts)) in E.
  destruct E as (Hwf & Hk & Hall).
  { simpl. repeat split; [constructor | apply keyed_new | constructor]. }
  destruct (Program_exit_returns p_sep p_join p_relative p_dirname process_cwd
                                 JSON_stringify opts file st1)
    as (added & ->).
  intros [= <-]. simpl.
  exists (Map.values (reactIntl_messages st1)).
  split; [reflexivity|]. split; [|exact Hall].
  rewrite keyed_values_ids; assumption.
Qed.

(** X15: when a visitor throws while a file is processed, the exception
    ends the file there: leaving the program is not run, and the metadata
    and the file system are as they were before the file was entered. *)
Theorem visitor_exception_ends_the_file
        (opts : options) (file : file_opts) (nodes : list visited)
        (st st' : plugin_state) (e : exception) :
  (Program_enter ;; forEach (visit printICUMessage opts) nodes) st
  = (Thrown e, st') ->
  run opts file nodes st = (Thrown e, st')
  /\ keeps_outputs st st'.
Proof.
  unfold transform, bind at 1 3, Program_enter, put_messages.
  intros H. unfold bind at 1.
  destruct (forEach (visit printICUMessage opts) nodes _)
    as [[[]|e1] st1] eqn:E; [discriminate|].
  injection H as <- <-. split; [reflexivity|].
  apply (forEach_visit_respects
           opts keeps_outputs nodes
           keeps_outputs_refl keeps_outputs_trans
           keeps_outputs_only_warns
           (keeps_outputs_storeMessage opts)) in E.
  exact E.
Qed.

End Files.

Lemma transform_emits_well_formed_catalog_witness :
  let nodes := [VisitJSXOpeningElement (Sample.greeting "Hello");
                VisitJSXOpeningElement (Sample.greeting "Hello")] in
  exists ds,
    file_metadata (snd (Sample.transform Sample.opts Sample.file nodes
                                         Sample.st0))
    = Some ds
    /\ NoDup (map id ds)
    /\ Forall (fun d => acceptable Sample.opts d = true) ds.
Proof.
  intros nodes.
  apply (transform_emits_well_formed_catalog
           Sample.printICUMessage Sample.p_sep Sample.p_join
           Sample.p_relative Sample.p_dirname Sample.process_cwd
           Sample.JSON_stringify Sample.opts Sample.file nodes Sample.st0).
  reflexivity.
Defined.

Lemma visitor_exception_ends_the_file_witness :
  let opts := mkOptions None None None false (Some "build/messages") in
  let nodes := [VisitJSXOpeningElement (Sample.greeting "Hello");
                VisitJSXOpeningElement (Sample.greeting "Hi")] in
  let thrown :=
    Thrown (CodeFrameError (AtJSXOpeningElement (Sample.greeting "Hi"))
                           (DuplicateMessageId (str "greeting"))) in
  fst (Sample.transform opts Sample.file nodes Sample.st0) = thrown
  /\ keeps_outputs
       Sample.st0 (snd (Sample.transform opts Sample.file nodes Sample.st0)).
Proof.
  intros opts nodes thrown.
  destruct (visitor_exception_ends_the_file
              Sample.printICUMessage Sample.p_sep Sample.p_join
              Sample.p_relative Sample.p_dirname Sample.process_cwd
              Sample.JSON_stringify opts Sample.file nodes Sample.st0
              (snd ((Program_enter ;;
                     forEach (visit Sample.printICUMessage opts) nodes)
                      Sample.st0))
              (CodeFrameError (AtJSXOpeningElement (Sample.greeting "Hi"))
                              (DuplicateMessageId (str "greeting")))
              eq_refl)
    as [Hrun Hkeeps].
  unfold Sample.transform. rewrite Hrun. split; [reflexivity | exact Hkeeps].
Defined.

(** ** Marker function calls *)

Section Calls.

Variable printICUMessage : value -> string + value.

(** X16: a marker call with no argument, or whose first argument is not an
    object expression, throws the error that names the callee, and the state
    is the one it started from. *)
Theorem marker_call_needs_object_expression
        (p : CallExpressionPath) (opts : options) (st : plugin_state) :
  referencesImport (call_callee p) (getModuleSourceNames opts) FUNCTION_NAMES
  = true ->
  (forall obj, nth_error (call_arguments p) 0 = Some obj ->
               isObjectExpression obj = false) ->
  CallExpression printICUMessage p opts st
  = (Thrown (CodeFrameError
               (AtCallExpression p)
               (MustBeCalledWithObjectExpression (node_name (call_callee p)))),
     st).
Proof.
  intros Href Hobj. unfold CallExpression. rewrite Href.
  unfold bind, assertObjectExpression.
  destruct (nth_error (call_arguments p) 0) as [obj|]; [|reflexivity].
  now rewrite (Hobj obj eq_refl).
Qed.

Lemma CallExpression_at_property
      (p : CallExpressionPath) (opts : options)
      (pre post : list property) (prop : property)
      (st st1 : plugin_state) (evaluated : option value) :
  referencesImport (call_callee p) (getModuleSourceNames opts) FUNCTION_NAMES
  = true ->
  nth_error (call_arguments p) 0
  = Some (ObjectExpression (pre ++ prop :: post) evaluated) ->
  forEach (processMessageObject printICUMessage p opts) (map get_value pre) st
  = (Returned tt, st1) ->
  CallExpression printICUMessage p opts st
  = (processMessageObject printICUMessage p opts (get_value prop) ;;
     forEach (processMessageObject printICUMessage p opts)
             (map get_value post)) st1.
Proof.
  intros Href Harg Hpre. unfold CallExpression. rewrite Href, Harg.
  unfold assertObjectExpression. simpl. unfold bind at 1. simpl.
  rewrite map_app, forEach_app, Hpre. reflexivity.
Qed.

(** X17: in a marker call, a property of the messages object whose value is
    not an object expression makes the call throw the error that names the
    callee, once the properties before it have been processed; what those
    registered stays in the registry. *)
Theorem marker_call_needs_message_objects
        (p : CallExpressionPath) (opts : options)
        (pre post : list property) (k v : path) (st st1 : plugin_state)
        (evaluated : option value) :
  referencesImport (call_callee p) (getModuleSourceNames opts) FUNCTION_NAMES
  = true ->
  nth_error (call_arguments p) 0
  = Some (ObjectExpression (pre ++ ObjectProperty k v :: post) evaluated) ->
  forEach (processMessageObject printICUMessage p opts) (map get_value pre) st
  = (Returned tt, st1) ->
  isObjectExpression v = false ->
  CallExpression printICUMessage p opts st
  = (Thrown (CodeFrameError
               (AtCallExpression p)
               (MustBeCalledWithObjectExpression (node_name (call_callee p)))),
     st1).
Proof.
  intros Href Harg Hpre Hv.
  rewrite (CallExpression_at_property p opts pre post (ObjectProperty k v)
                                      st st1 evaluated Href Harg Hpre).
  unfold bind at 1. unfold processMessageObject, bind, assertObjectExpression.
  simpl. now rewrite Hv.
Qed.

(** X18: in a marker call, a message object none of whose properties
    resolves a [defaultMessage] makes the call throw the missing
    [defaultMessage] error (a JSX usage in the same case is passed over);
    building its descriptor may only have added warnings. *)
Theorem marker_call_needs_defaultMessage
        (p : CallExpressionPath) (opts : options)
        (pre post props : list property) (k : path)
        (st st1 : plugin_state) (evaluated evaluated' : option value) :
  referencesImport (call_callee p) (getModuleSourceNames opts) FUNCTION_NAMES
  = true ->
  nth_error (call_arguments p) 0
  = Some (ObjectExpression
            (pre ++ ObjectProperty k (ObjectExpression props evaluated')
                 :: post)
            evaluated) ->
  forEach (processMessageObject printICUMessage p opts) (map get_value pre) st
  = (Returned tt, st1) ->
  (forall prop, In prop props ->
                ~ resolves_defaultMessage (get_key prop) (get_value prop)) ->
  exists st2,
    CallExpression printICUMessage p opts st
    = (Thrown (CodeFrameError (AtCallExpression p) MissingDefaultMessage),
       st2)
    /\ only_warns st1 st2.
Proof.
  intros Href Harg Hpre Hno.
  rewrite (CallExpression_at_property
             p opts pre post
             (ObjectProperty k (ObjectExpression props evaluated'))
             st st1 evaluated Href Harg Hpre).
  unfold bind at 1. unfold processMessageObject, assertObjectExpression.
  cbn [get_value isObjectExpression get_properties]. unfold bind at 1.
  unfold ret at 1. unfold bind at 1.
  set (pairs := map (fun prop => (get_key prop, get_value prop)) props).
  destruct (reduce_without_defaultMessage printICUMessage false pairs)
    with (hash := empty_hash) (st := st1)
    as (d & st2 & Hr & Hd & _).
  { intros k' v' Hin. apply in_map_iff in Hin.
    destruct Hin as (prop & [= <- <-] & Hin). now apply Hno. }
  pose proof (only_warns_createMessageDescriptor
                printICUMessage pairs false st1 _ _ Hr) as Hw.
  unfold createMessageDescriptor. rewrite Hr.
  simpl in Hd. rewrite Hd. simpl.
  exists st2. split; [reflexivity | exact Hw].
Qed.

(** X19: when the visitor returns from a JSX marker whose descriptor was
    built with a non-empty [defaultMessage], the registry holds that
    descriptor under its id, and the id is not empty. *)
Theorem jsx_marker_registers_its_descriptor
        (p : JSXOpeningElementPath) (opts : options) (d : descriptor)
        (st st1 st' : plugin_state) :
  isMarkupMarker opts p = true ->
  createMessageDescriptor printICUMessage
                          (attribute_pairs (jsx_attributes p)) true st
  = (Returned d, st1) ->
  truthy (defaultMessage d) = true ->
  JSXOpeningElement printICUMessage p opts st = (Returned tt, st') ->
  Map.get (id d) (reactIntl_messages st') = Some d
  /\ truthy (id d) = true.
Proof.
  intros Mk Hd Hdm.
  rewrite JSXOpeningElement_marker by assumption.
  unfold bind. rewrite Hd, Hdm. intros H.
  apply storeMessage_returned in H.
  destruct H as (Hid & _ & _ & _ & ->). simpl.
  split; [apply MapFacts.get_set_same | exact Hid].
Qed.

End Calls.

Lemma marker_call_needs_object_expression_witness :
  let p :=
    mkCallExpression
      (Identifier "defineMessages"
                  (Some (mkImport "react-intl" "defineMessages")) None)
      [] in
  Sample.CallExpression p Sample.opts Sample.st0
  = (Thrown (CodeFrameError
               (AtCallExpression p)
               (MustBeCalledWithObjectExpression "defineMessages")),
     Sample.st0).
Proof.
  intros p.
  apply (marker_call_needs_object_expression
           Sample.printICUMessage p Sample.opts Sample.st0).
  - reflexivity.
  - intros obj H. discriminate.
Defined.

Lemma marker_call_needs_message_objects_witness :
  let greeting :=
    ObjectProperty
      (Identifier "greeting" None None)
      (ObjectExpression
         [ObjectProperty (Identifier "id" None None)
                         (StringLiteral "greeting");
          ObjectProperty (Identifier "defaultMessage" None None)
                         (StringLiteral "Hello")]
         None) in
  let p :=
    mkCallExpression
      (Identifier "msgs" (Some (mkImport "react-intl" "msgs")) None)
      [ObjectExpression
         [greeting;
          ObjectProperty (Identifier "farewell" None None)
                         (StringLiteral "Bye")]
         None] in
  Sample.CallExpression p Sample.opts Sample.st0
  = (Thrown (CodeFrameError (AtCallExpression p)
                            (MustBeCalledWithObjectExpression "msgs")),
     with_messages
       Sample.st0
       [(str "greeting",
         mkDescriptor (str "greeting") undefined (str "Hello"))]).
Proof.
  intros greeting p.
  apply (marker_call_needs_message_objects
           Sample.printICUMessage p Sample.opts [greeting] []
           (Identifier "farewell" None None) (StringLiteral "Bye")
           Sample.st0 _ None); reflexivity.
Defined.

Lemma marker_call_needs_defaultMessage_witness :
  let p :=
    mkCallExpression
      (Identifier "defineMessages"
                  (Some (mkImport "react-intl" "defineMessages")) None)
      [ObjectExpression
         [ObjectProperty
            (Identifier "greeting" None None)
            (ObjectExpression
               [ObjectProperty (Identifier "id" None None)
                               (StringLiteral "greeting")]
               None)]
         None] in
  exists st2,
    Sample.CallExpression p Sample.opts Sample.st0
    = (Thrown (CodeFrameError (AtCallExpression p) MissingDefaultMessage),
       st2)
    /\ only_warns Sample.st0 st2.
Proof.
  intros p.
  apply (marker_call_needs_defaultMessage
           Sample.printICUMessage p Sample.opts [] []
           [ObjectProperty (Identifier "id" None None)
                           (StringLiteral "greeting")]
           (Identifier "greeting" None None) Sample.st0 Sample.st0
           None None).
  - reflexivity.
  - reflexivity.
  - reflexivity.
  - intros prop [<-|[]] [H _]. discriminate.
Defined.

Lemma jsx_marker_registers_its_descriptor_witness :
  let d := mkDescriptor (str "greeting") undefined (str "Hello") in
  Map.get (str "greeting")
          (reactIntl_messages
             (snd (Sample.JSXOpeningElement (Sample.greeting "Hello")
                                            Sample.opts Sample.st0)))
  = Some d
  /\ truthy (id d) = true.
Proof.
  intros d.
  apply (jsx_marker_registers_its_descriptor
           Sample.printICUMessage (Sample.greeting "Hello") Sample.opts d
           Sample.st0 Sample.st0); reflexivity.
Defined.
